(** * DGraph-Lab3: the bulk loader, the canned queries and the delete service

    A shallow embedding of [src/model.py] (and of the pagination branch of
    [src/main.py]) together with the properties its specification states.

    The program is a thin client of a remote Dgraph engine.  Everything the
    program cannot decide by itself is a parameter of the development:
    - the engine, behind the interface [Dgraph] (one transition function per
      client call, each free to answer or to raise);
    - the host: the file system, [json.loads] and [int], in the record [Host].
    Python code becomes a computation in the monad [M]: it threads the engine
    and the transaction counter, may raise, and emits the client calls and
    the [print]s it performs, in order. *)

From Stdlib Require Import ZArith Ascii String List Lia.
From Stdlib Require Import Floats.SpecFloat.
From stdpp Require Import base option list strings gmap pretty.

Open Scope string_scope.
Open Scope list_scope.

(** ** Characters and text *)

(** The double quote and the backslash, by code point. *)
Definition dquote : ascii := "034"%char.
Definition backslash : ascii := "092"%char.
Definition dq : string := String dquote EmptyString.

(** [s.replace('"', '\\"')]: every double quote becomes backslash, quote. *)
Fixpoint replace_quote (s : string) : string :=
  match s with
  | EmptyString => EmptyString
  | String c r =>
      if Ascii.eqb c dquote
      then String backslash (String dquote (replace_quote r))
      else String c (replace_quote r)
  end.

(** ** Python values and exceptions *)

(** The values [json.loads] can return and the objects handed to
    [txn.mutate]: [None], booleans, integers, floats, strings, lists and
    dicts with string keys (an association list in insertion order). *)
#[warnings="-register-all"]
Inductive pyval : Type :=
  | PNone
  | PBool (b : bool)
  | PInt (z : Z)
  | PFloat (f : spec_float)
  | PStr (s : string)
  | PList (l : list pyval)
  | PDict (d : list (string * pyval)).

(** The subclasses of [Exception] the program can meet. *)
Inductive exn : Type :=
  | JSONDecodeError (msg : string)
  | AttributeError (msg : string)
  | TypeError (msg : string)
  | KeyError (k : string)
  | IndexError (msg : string)
  | ValueError (msg : string)
  | OSError (msg : string)
  | FileNotFoundError (missing : list string)
  | DgraphError (msg : string).

(** A call either raises or returns. *)
Definition result (A : Type) : Type := exn + A.

Definition rbind {A B} (r : result A) (f : A -> result B) : result B :=
  match r with
  | inl e => inl e
  | inr a => f a
  end.

(** [d.get(k)] on the association list of a dict. *)
Fixpoint assoc_get (k : string) (d : list (string * pyval)) : option pyval :=
  match d with
  | [] => None
  | (k', v) :: r => if String.eqb k k' then Some v else assoc_get k r
  end.

(** Truth value of an object, as [if x] and [not x] compute it. *)
Definition py_truthy (v : pyval) : bool :=
  match v with
  | PNone => false
  | PBool b => b
  | PInt z => negb (Z.eqb z 0)
  | PFloat (S754_zero _) => false
  | PFloat _ => true
  | PStr EmptyString => false
  | PStr _ => true
  | PList [] => false
  | PList _ => true
  | PDict [] => false
  | PDict _ => true
  end.

(** [v.get(k, default)]: only dicts have the method. *)
Definition py_get (v : pyval) (k : string) (dflt : pyval) : result pyval :=
  match v with
  | PDict d => inr (default dflt (assoc_get k d))
  | _ => inl (AttributeError "get")
  end.

(** [v[0]]: the first element of a list, the first character of a string;
    a dict decoded from JSON has string keys only, so [d[0]] is a
    [KeyError]; nothing else is subscriptable. *)
Definition py_item0 (v : pyval) : result pyval :=
  match v with
  | PList (x :: _) => inr x
  | PList [] => inl (IndexError "list index out of range")
  | PStr (String c _) => inr (PStr (String c EmptyString))
  | PStr EmptyString => inl (IndexError "string index out of range")
  | PDict _ => inl (KeyError "0")
  | _ => inl (TypeError "object is not subscriptable")
  end.

(** [x is None]. *)
Definition is_None (v : pyval) : bool :=
  match v with
  | PNone => true
  | _ => false
  end.

(** ** The host: file system and builtins *)

(** A row of [csv.DictReader]: column name to cell; a cell is [None] when
    the line is shorter than the header. *)
Abbreviation cell := (option string).
Abbreviation row := (gmap string (option string)).

(** [row[k]]. *)
Definition row_get (r : row) (k : string) : result cell :=
  match r !! k with
  | Some c => inr c
  | None => inl (KeyError k)
  end.

(** A cell as a Python object, and as an f-string renders it. *)
Definition cell_val (c : cell) : pyval :=
  match c with
  | Some s => PStr s
  | None => PNone
  end.

Definition cell_str (c : cell) : string :=
  match c with
  | Some s => s
  | None => "None"
  end.

(** What the program asks of its host.  [open_csv p] is [open(p)]
    followed by the iteration of the [DictReader]: it raises, or yields
    rows and then possibly an error that ends the iteration early. *)
Class Host : Type := {
  project_root : string;
  isfile : string -> bool;
  open_csv : string -> result (list row * option exn);
  json_loads : string -> result pyval;
  int_of_str : string -> result Z
}.

(** [os.path.join] on a POSIX host. *)
Definition ends_with_slash (a : string) : bool :=
  match last (String.list_ascii_of_string a) with
  | Some c => Ascii.eqb c "/"%char
  | None => false
  end.

Definition path_join (a b : string) : string :=
  match b with
  | String "/"%char _ => b
  | _ =>
      if String.eqb a EmptyString || ends_with_slash a
      then a +:+ b
      else a +:+ "/" +:+ b
  end.

(** ** The engine *)

(** A transaction object of the client: its identity and its mode. *)
Record txn : Type := { txn_id : nat; txn_read_only : bool }.

(** [txn.mutate(set_obj=v)] and [txn.mutate(del_obj=v)]. *)
Inductive mutation : Type :=
  | SetObj (v : pyval)
  | DelObj (v : pyval).

(** The client contract the program consumes.  A query answers with the
    JSON text of the response ([res.json]); a mutation answers with the
    map of generated identifiers ([resp.uids]). *)
Class Dgraph (E : Type) : Type := {
  dg_query : E -> txn -> string -> result string * E;
  dg_mutate : E -> txn -> mutation -> result (gmap string string) * E;
  dg_commit : E -> txn -> result unit * E;
  dg_discard : E -> txn -> result unit * E
}.

(** ** Observable behaviour *)

(** What [print] writes.  Text is kept as text; the [repr] of a batch,
    of an exception and of a [json.dumps] are kept structured. *)
Inductive output : Type :=
  | OutStr (s : string)
  | OutLoading (what : string) (batch : list pyval)
  | OutError (e : exn)
  | OutTraceback (e : exn)
  | OutJson (v : pyval).

Inductive event : Type :=
  | EvTxn (t : txn)
  | EvQuery (t : txn) (q : string)
  | EvMutate (t : txn) (m : mutation)
  | EvCommit (t : txn)
  | EvDiscard (t : txn)
  | EvPrint (o : output).

(** ** The monad of the program *)

Section Monad.
Context {E : Type}.

Record state : Type := { engine : E; next_txn : nat }.

Record outcome (A : Type) : Type :=
  { res : result A; st : state; evs : list event }.
Arguments res {A} _.
Arguments st {A} _.
Arguments evs {A} _.

Definition M (A : Type) : Type := state -> outcome A.

Definition ret {A} (a : A) : M A :=
  fun s => {| res := inr a; st := s; evs := [] |}.

Definition raise {A} (e : exn) : M A :=
  fun s => {| res := inl e; st := s; evs := [] |}.

Definition bind {A B} (m : M A) (f : A -> M B) : M B :=
  fun s =>
    let o := m s in
    match res o with
    | inl e => {| res := inl e; st := st o; evs := evs o |}
    | inr a =>
        let o' := f a (st o) in
        {| res := res o'; st := st o'; evs := evs o ++ evs o' |}
    end.

(** A pure call that may raise. *)
Definition lift {A} (r : result A) : M A :=
  match r with
  | inl e => raise e
  | inr a => ret a
  end.

(** [try: body finally: fin]: [fin] runs on every exit of [body]; an
    exception of [fin] replaces the outcome of [body]. *)
Definition try_finally {A} (body : M A) (fin : M unit) : M A :=
  fun s =>
    let o := body s in
    let o' := fin (st o) in
    {| res := match res o' with
              | inl e => inl e
              | inr _ => res o
              end;
       st := st o';
       evs := evs o ++ evs o' |}.

(** [try: body except Exception as e: handler(e)]. *)
Definition try_except {A} (body : M A) (handler : exn -> M A) : M A :=
  fun s =>
    let o := body s in
    match res o with
    | inl e =>
        let o' := handler e (st o) in
        {| res := res o'; st := st o'; evs := evs o ++ evs o' |}
    | inr a => o
    end.

Definition emit (e : event) : M unit :=
  fun s => {| res := inr tt; st := s; evs := [e] |}.

Definition print (o : output) : M unit := emit (EvPrint o).
End Monad.

Arguments state : clear implicits.
Arguments outcome : clear implicits.
Arguments M : clear implicits.
Arguments res {E A} _.
Arguments st {E A} _.
Arguments evs {E A} _.

Declare Scope py_scope.
Delimit Scope py_scope with py.
Notation "x <- m ;; k" := (bind m (fun x => k))
  (at level 100, m at next level, right associativity) : py_scope.
Notation "m ;; k" := (bind m (fun _ => k))
  (at level 100, right associativity) : py_scope.
Open Scope py_scope.

(** [for x in xs: body(x)]. *)
Fixpoint for_each {E A} (xs : list A) (body : A -> M E unit) : M E unit :=
  match xs with
  | [] => ret tt
  | x :: r => body x ;; for_each r body
  end.

(** ** The client calls *)

Section Client.
Context {E : Type} `{Dgraph E}.

(** [client.txn(read_only=ro)]: a local object, no round trip. *)
Definition client_txn (ro : bool) : M E txn :=
  fun s =>
    let t := {| txn_id := next_txn s; txn_read_only := ro |} in
    {| res := inr t;
       st := {| engine := engine s; next_txn := S (next_txn s) |};
       evs := [EvTxn t] |}.

(** One round trip: the event, then whatever the engine answers. *)
Definition call {A} (ev : event) (f : E -> result A * E) : M E A :=
  fun s =>
    let answer := f (engine s) in
    {| res := answer.1;
       st := {| engine := answer.2; next_txn := next_txn s |};
       evs := [ev] |}.

(** [txn.query(q).json] *)
Definition txn_query (t : txn) (q : string) : M E string :=
  call (EvQuery t q) (fun e => dg_query e t q).

(** [txn.mutate(...).uids] *)
Definition txn_mutate (t : txn) (m : mutation) : M E (gmap string string) :=
  call (EvMutate t m) (fun e => dg_mutate e t m).

Definition txn_commit (t : txn) : M E unit :=
  call (EvCommit t) (fun e => dg_commit e t).

Definition txn_discard (t : txn) : M E unit :=
  call (EvDiscard t) (fun e => dg_discard e t).
End Client.

(** ** [_first_uid_from_query] *)

Section FirstUid.
Context `{Host}.

(** The body of the [try]. *)
Definition first_uid_try (json_str key : string) : result pyval :=
  rbind (json_loads json_str) (fun data =>
  rbind (py_get data key (PList [])) (fun items =>
  if negb (py_truthy items) then inr PNone
  else rbind (py_item0 items) (fun item => py_get item "uid" PNone))).

(** [except Exception: return None]. *)
Definition _first_uid_from_query (json_str key : string) : pyval :=
  match first_uid_try json_str key with
  | inl _ => PNone
  | inr v => v
  end.
End FirstUid.

(** ** Loading nodes *)

(** The attributes of a node record, read from the row in source order. *)
Fixpoint row_fields (columns : list string) (r : row)
  : result (list (string * pyval)) :=
  match columns with
  | [] => inr []
  | c :: cs =>
      rbind (row_get r c) (fun v =>
      rbind (row_fields cs r) (fun fs => inr ((c, cell_val v) :: fs)))
  end.

(** One record of the batch: the temporary reference [tmp + str(i)], the
    type, then the attributes. *)
Definition node_record (tmp type : string) (columns : list string)
    (i : nat) (r : row) : result pyval :=
  rbind (row_fields columns r) (fun fs =>
  inr (PDict (("uid", PStr (tmp +:+ pretty i))
              :: ("dgraph.type", PStr type) :: fs))).

(** The [for row in reader] loop of a node loader, [i] counting from its
    start value. *)
Fixpoint node_batch (tmp type : string) (columns : list string)
    (i : nat) (rows : list row) : result (list pyval) :=
  match rows with
  | [] => inr []
  | r :: rs =>
      rbind (node_record tmp type columns i r) (fun x =>
      rbind (node_batch tmp type columns (S i) rs) (fun xs => inr (x :: xs)))
  end.

(** When the reader fails after some rows, the loop ends with its error. *)
Definition reader_end {A} (tail : option exn) (a : A) : result A :=
  match tail with
  | Some e => inl e
  | None => inr a
  end.

Section Loaders.
Context {E : Type} `{Dgraph E} `{Host}.

(** The four node loaders share one text; they differ in the name they
    print, the temporary reference prefix, the type and the columns. *)
Definition load_nodes (what tmp type : string) (columns : list string)
    (file_path : string) : M E (gmap string string) :=
  txn <- client_txn false ;;
  resp <- try_finally
    (file <- lift (open_csv file_path) ;;
     batch <- lift (rbind (node_batch tmp type columns 1 file.1)
                          (reader_end file.2)) ;;
     print (OutLoading what batch) ;;
     resp <- txn_mutate txn (SetObj (PList batch)) ;;
     txn_commit txn ;;
     ret resp)
    (txn_discard txn) ;;
  ret resp.

Definition load_comments : string -> M E (gmap string string) :=
  load_nodes "comments" "_:c" "Comment" ["text"].

Definition load_playlists : string -> M E (gmap string string) :=
  load_nodes "playlists" "_:p" "Playlist" ["title"; "visibility"].

Definition load_users : string -> M E (gmap string string) :=
  load_nodes "users" "_:u" "User"
    ["username"; "email"; "location.lat"; "location.long"].

Definition load_videos : string -> M E (gmap string string) :=
  load_nodes "videos" "_:v" "Video"
    ["title"; "description"; "duration"; "date_uploaded"].
End Loaders.

(** ** Loading relationships *)

(** The filter function of a lookup query. *)
Inductive match_fn : Type := ExactMatch | AnyOfText.

Definition match_fn_name (f : match_fn) : string :=
  match f with
  | ExactMatch => "eq"
  | AnyOfText => "anyoftext"
  end.

(** One end of a relationship row: the CSV column, the name of the query
    block (also the key of the response), the filter and the attribute, and
    the wording of the warning. *)
Record endpoint : Type := {
  ep_column : string;
  ep_block : string;
  ep_fn : match_fn;
  ep_attr : string;
  ep_noun : string
}.

(** The lookup query text.  [load_comment_replies_comment] writes it
    without blanks, the eight other loaders with blanks. *)
Definition lookup_query (compact : bool) (ep : endpoint) (v : string) : string :=
  if compact
  then "{" +:+ ep_block ep +:+ "(func: " +:+ match_fn_name (ep_fn ep) +:+ "("
       +:+ ep_attr ep +:+ ", " +:+ dq +:+ v +:+ dq +:+ ")){uid}}"
  else "{ " +:+ ep_block ep +:+ "(func: " +:+ match_fn_name (ep_fn ep) +:+ "("
       +:+ ep_attr ep +:+ ", " +:+ dq +:+ v +:+ dq +:+ ")) { uid } }".

Definition not_found_warning (ep : endpoint) (v : string) : string :=
  "Warning: " +:+ ep_noun ep +:+ " not found for " +:+ ep_attr ep +:+ ": '"
  +:+ v +:+ "', skipping relation".

(** A relationship loader: its two ends in the order the source resolves
    them, whether both queries are sent before the first result is
    inspected, the predicate, which end carries the predicate, and the
    progress line. *)
Record relation : Type := {
  rel_first : endpoint;
  rel_second : endpoint;
  rel_compact : bool;
  rel_eager : bool;
  rel_predicate : string;
  rel_subject_is_first : bool;
  rel_announce : string -> string -> string
}.

Definition arrow_line (kind a b : string) : string :=
  "Generating relationship " +:+ kind +:+ ": '" +:+ a +:+ "' -> '" +:+ b +:+ "'".

(** The mutation of one row: [{'uid': subject, predicate: [{'uid': object}]}]. *)
Definition edge_object (rel : relation) (uid1 uid2 : pyval) : pyval :=
  let subject := if rel_subject_is_first rel then uid1 else uid2 in
  let object := if rel_subject_is_first rel then uid2 else uid1 in
  PDict [("uid", subject);
         (rel_predicate rel, PList [PDict [("uid", object)]])].

Definition comment_end (column : string) (fn : match_fn) (noun : string) :=
  {| ep_column := column; ep_block := "comment"; ep_fn := fn;
     ep_attr := "text"; ep_noun := noun |}.
Definition user_end : endpoint :=
  {| ep_column := "username"; ep_block := "user"; ep_fn := ExactMatch;
     ep_attr := "username"; ep_noun := "user" |}.
Definition video_end (column : string) : endpoint :=
  {| ep_column := column; ep_block := "video"; ep_fn := ExactMatch;
     ep_attr := "title"; ep_noun := "video" |}.
Definition playlist_end (column : string) : endpoint :=
  {| ep_column := column; ep_block := "playlist"; ep_fn := ExactMatch;
     ep_attr := "title"; ep_noun := "playlist" |}.

Definition comment_replies_comment : relation :=
  {| rel_first := comment_end "comment_text" ExactMatch "comment";
     rel_second := comment_end "replied_to_text" ExactMatch "replied-to comment";
     rel_compact := true; rel_eager := false;
     rel_predicate := "replies_to_c_c"; rel_subject_is_first := false;
     rel_announce := fun _ _ =>
       "Generating relationship comment replies to comment..." |}.

Definition comment_replies_video : relation :=
  {| rel_first := comment_end "comment_text" AnyOfText "comment";
     rel_second := video_end "video_title";
     rel_compact := false; rel_eager := false;
     rel_predicate := "replies_to_c_v"; rel_subject_is_first := true;
     rel_announce := arrow_line "comment -> video" |}.

Definition playlist_contains_video : relation :=
  {| rel_first := playlist_end "playlist_title";
     rel_second := video_end "video_title";
     rel_compact := false; rel_eager := false;
     rel_predicate := "contains"; rel_subject_is_first := true;
     rel_announce := arrow_line "playlist -> video" |}.

Definition user_comments : relation :=
  {| rel_first := user_end;
     rel_second := comment_end "comment_text" AnyOfText "comment";
     rel_compact := false; rel_eager := false;
     rel_predicate := "comments"; rel_subject_is_first := true;
     rel_announce := arrow_line "user -> comment" |}.

Definition user_creates_playlist : relation :=
  {| rel_first := user_end;
     rel_second := playlist_end "title";
     rel_compact := false; rel_eager := false;
     rel_predicate := "creates"; rel_subject_is_first := true;
     rel_announce := arrow_line "user -> creates" |}.

Definition user_likes_comment : relation :=
  {| rel_first := user_end;
     rel_second := comment_end "comment_text" AnyOfText "comment";
     rel_compact := false; rel_eager := false;
     rel_predicate := "likes_u_c"; rel_subject_is_first := true;
     rel_announce := arrow_line "user -> likes_comment" |}.

Definition user_likes_video : relation :=
  {| rel_first := user_end;
     rel_second := video_end "title";
     rel_compact := false; rel_eager := false;
     rel_predicate := "likes_u_v"; rel_subject_is_first := true;
     rel_announce := arrow_line "user -> likes_video" |}.

Definition user_posts_video : relation :=
  {| rel_first := user_end;
     rel_second := video_end "title";
     rel_compact := false; rel_eager := true;
     rel_predicate := "posts"; rel_subject_is_first := true;
     rel_announce := arrow_line "user -> posts" |}.

Definition user_saves_video : relation :=
  {| rel_first := user_end;
     rel_second := video_end "title";
     rel_compact := false; rel_eager := true;
     rel_predicate := "saves"; rel_subject_is_first := true;
     rel_announce := arrow_line "user -> saves" |}.

Definition relations : list relation :=
  [comment_replies_comment; comment_replies_video; playlist_contains_video;
   user_comments; user_creates_playlist; user_likes_comment;
   user_likes_video; user_posts_video; user_saves_video].

Section Relationships.
Context {E : Type} `{Dgraph E} `{Host}.

(** [client.txn(read_only=True).query(q)]: the transaction object is
    used for this one call and then dropped. *)
Definition lookup (compact : bool) (ep : endpoint) (v : string) : M E string :=
  t <- client_txn true ;;
  txn_query t (lookup_query compact ep v).

Definition warn_not_found (ep : endpoint) (v : string) : M E unit :=
  print (OutStr (not_found_warning ep v)).

(** The write of one row, in its own transaction. *)
Definition create_edge (rel : relation) (v1 v2 : string)
    (uid1 uid2 : pyval) : M E unit :=
  txn <- client_txn false ;;
  try_finally
    (print (OutStr (rel_announce rel v1 v2)) ;;
     txn_mutate txn (SetObj (edge_object rel uid1 uid2)) ;;
     txn_commit txn)
    (txn_discard txn).

(** The body of the [for row in reader] loop; returning early is the
    source's [continue]. *)
Definition relation_row (rel : relation) (r : row) : M E unit :=
  c1 <- lift (row_get r (ep_column (rel_first rel))) ;;
  c2 <- lift (row_get r (ep_column (rel_second rel))) ;;
  let v1 := cell_str c1 in
  let v2 := cell_str c2 in
  if rel_eager rel then
    res1 <- lookup (rel_compact rel) (rel_first rel) v1 ;;
    res2 <- lookup (rel_compact rel) (rel_second rel) v2 ;;
    let uid1 := _first_uid_from_query res1 (ep_block (rel_first rel)) in
    if is_None uid1 then warn_not_found (rel_first rel) v1
    else
      let uid2 := _first_uid_from_query res2 (ep_block (rel_second rel)) in
      if is_None uid2 then warn_not_found (rel_second rel) v2
      else create_edge rel v1 v2 uid1 uid2
  else
    res1 <- lookup (rel_compact rel) (rel_first rel) v1 ;;
    let uid1 := _first_uid_from_query res1 (ep_block (rel_first rel)) in
    if is_None uid1 then warn_not_found (rel_first rel) v1
    else
      res2 <- lookup (rel_compact rel) (rel_second rel) v2 ;;
      let uid2 := _first_uid_from_query res2 (ep_block (rel_second rel)) in
      if is_None uid2 then warn_not_found (rel_second rel) v2
      else create_edge rel v1 v2 uid1 uid2.

Definition relation_rows (rel : relation) (rows : list row) : M E unit :=
  for_each rows (relation_row rel).

Definition load_relationship (rel : relation) (file_path : string) : M E unit :=
  file <- lift (open_csv file_path) ;;
  relation_rows rel file.1 ;;
  lift (reader_end file.2 tt).

Definition load_comment_replies_comment := load_relationship comment_replies_comment.
Definition load_comment_replies_video := load_relationship comment_replies_video.
Definition load_playlist_contains_video := load_relationship playlist_contains_video.
Definition load_user_comments := load_relationship user_comments.
Definition load_user_creates_playlist := load_relationship user_creates_playlist.
Definition load_user_likes_comment := load_relationship user_likes_comment.
Definition load_user_likes_video := load_relationship user_likes_video.
Definition load_user_posts_video := load_relationship user_posts_video.
Definition load_user_saves_video := load_relationship user_saves_video.
End Relationships.

(** ** [create_data] *)

Section CreateData.
Context {E : Type} `{Dgraph E} `{Host}.

Definition NODES_DATA_PATH : string :=
  path_join (path_join project_root "data") "nodes".
Definition EDGES_DATA_PATH : string :=
  path_join (path_join project_root "data") "edges".

Definition COMMENTS_PATH := path_join NODES_DATA_PATH "comments.csv".
Definition PLAYLISTS_PATH := path_join NODES_DATA_PATH "playlists.csv".
Definition USERS_PATH := path_join NODES_DATA_PATH "users.csv".
Definition VIDEOS_PATH := path_join NODES_DATA_PATH "videos.csv".

Definition COMMENT_REPLIES_COMMENT :=
  path_join EDGES_DATA_PATH "comment_replies_comment.csv".
Definition COMMENT_REPLIES_VIDEO :=
  path_join EDGES_DATA_PATH "comment_replies_video.csv".
Definition PLAYLIST_CONTAINS_VIDEO :=
  path_join EDGES_DATA_PATH "playlist_contains_video.csv".
Definition USER_COMMENTS := path_join EDGES_DATA_PATH "user_comments.csv".
Definition USER_CREATES_PLAYLIST :=
  path_join EDGES_DATA_PATH "user_creates_playlist.csv".
Definition USER_LIKES_COMMENT :=
  path_join EDGES_DATA_PATH "user_likes_comment.csv".
Definition USER_LIKES_VIDEO :=
  path_join EDGES_DATA_PATH "user_likes_video.csv".
Definition USER_POSTS_VIDEO :=
  path_join EDGES_DATA_PATH "user_posts_video.csv".
Definition USER_SAVES_VIDEO :=
  path_join EDGES_DATA_PATH "user_saves_video.csv".

Definition required_files : list string :=
  [COMMENTS_PATH; PLAYLISTS_PATH; USERS_PATH; VIDEOS_PATH;
   COMMENT_REPLIES_COMMENT; COMMENT_REPLIES_VIDEO; PLAYLIST_CONTAINS_VIDEO;
   USER_COMMENTS; USER_CREATES_PLAYLIST; USER_LIKES_COMMENT; USER_LIKES_VIDEO;
   USER_POSTS_VIDEO; USER_SAVES_VIDEO].

(** [[f for f in required_files if not os.path.isfile(f)]] *)
Definition missing_files : list string :=
  List.filter (fun f => negb (isfile f)) required_files.

(** The sanity check: [if missing: raise FileNotFoundError(...)]. *)
Definition sanity_check : M E unit :=
  match missing_files with
  | [] => ret tt
  | _ :: _ => raise (FileNotFoundError missing_files)
  end.

(** The thirteen calls, in source order. *)
Definition load_all : M E unit :=
  load_comments COMMENTS_PATH ;;
  load_playlists PLAYLISTS_PATH ;;
  load_users USERS_PATH ;;
  load_videos VIDEOS_PATH ;;
  load_comment_replies_comment COMMENT_REPLIES_COMMENT ;;
  load_comment_replies_video COMMENT_REPLIES_VIDEO ;;
  load_playlist_contains_video PLAYLIST_CONTAINS_VIDEO ;;
  load_user_comments USER_COMMENTS ;;
  load_user_creates_playlist USER_CREATES_PLAYLIST ;;
  load_user_likes_comment USER_LIKES_COMMENT ;;
  load_user_likes_video USER_LIKES_VIDEO ;;
  load_user_posts_video USER_POSTS_VIDEO ;;
  load_user_saves_video USER_SAVES_VIDEO.

(** [except Exception as e: print(...); traceback.print_exc()] *)
Definition report_error (e : exn) : M E unit :=
  print (OutError e) ;;
  print (OutTraceback e).

Definition create_data : M E unit :=
  try_except (sanity_check ;; load_all) report_error.
End CreateData.

(** ** Queries *)

(** [needle in s] for strings. *)
Fixpoint is_prefix (p s : string) : bool :=
  match p, s with
  | EmptyString, _ => true
  | String a p', String b s' => Ascii.eqb a b && is_prefix p' s'
  | String _ _, EmptyString => false
  end.

Fixpoint is_substring (p s : string) : bool :=
  is_prefix p s ||
  match s with
  | EmptyString => false
  | String _ s' => is_substring p s'
  end.

Fixpoint string_chars (s : string) : list pyval :=
  match s with
  | EmptyString => []
  | String c r => PStr (String c EmptyString) :: string_chars r
  end.

(** [for c in v]: what iterating over an object yields. *)
Definition py_iter (v : pyval) : result (list pyval) :=
  match v with
  | PList l => inr l
  | PDict d => inr (List.map (fun kv => PStr kv.1) d)
  | PStr s => inr (string_chars s)
  | _ => inl (TypeError "object is not iterable")
  end.

Definition pyval_is_str (s : string) (v : pyval) : bool :=
  match v with
  | PStr s' => String.eqb s s'
  | _ => false
  end.

(** ['uid' in c] *)
Definition has_uid (c : pyval) : result bool :=
  match c with
  | PDict d => inr (bool_decide (is_Some (assoc_get "uid" d)))
  | PStr s => inr (is_substring "uid" s)
  | PList l => inr (existsb (pyval_is_str "uid") l)
  | _ => inl (TypeError "argument is not iterable")
  end.

(** [c['uid']] *)
Definition item_uid (c : pyval) : result pyval :=
  match c with
  | PDict d =>
      match assoc_get "uid" d with
      | Some v => inr v
      | None => inl (KeyError "uid")
      end
  | _ => inl (TypeError "indices must be integers")
  end.

(** [[c['uid'] for c in comments if 'uid' in c]], over the items of
    [comments]. *)
Fixpoint uids_of (items : list pyval) : result (list pyval) :=
  match items with
  | [] => inr []
  | c :: r =>
      rbind (has_uid c) (fun b =>
      if b
      then rbind (item_uid c) (fun u =>
           rbind (uids_of r) (fun us => inr (u :: us)))
      else uids_of r)
  end.

Section Queries.
Context {E : Type} `{Dgraph E} `{Host}.

(** The text shared by five query functions: run [q] in a read-only
    transaction, decode, [return data.get(key, [])], [finally] discard. *)
Definition run_query (q key : string) : M E pyval :=
  txn <- client_txn true ;;
  try_finally
    (res <- txn_query txn q ;;
     data <- lift (json_loads res) ;;
     lift (py_get data key (PList [])))
    (txn_discard txn).

Definition query_by_text_q (text_search : string) : string :=
  let esc := replace_quote text_search in
  "{ comments(func: anyoftext(text, " +:+ dq +:+ esc +:+ dq
  +:+ ")) { uid text } }".

Definition query_by_text (text_search : string) : M E pyval :=
  run_query (query_by_text_q text_search) "comments".

Definition query_by_numeric_duration (min_duration : Z) : M E pyval :=
  run_query ("{ long_videos(func: gt(duration, " +:+ pretty min_duration
             +:+ ")) { uid title duration } }") "long_videos".

(** The query text of the source, a literal that spans eleven lines. *)
Definition query_users_with_posts_q : string :=
"{
      users_with_posts(func: type(User)) {
        uid
        username
        posts {
          uid
          title
          duration
        }
      }
    }".

Definition query_users_with_posts : M E pyval :=
  run_query query_users_with_posts_q "users_with_posts".

Definition query_video_posters_reverse_q (video_title : string) : string :=
  let esc := replace_quote video_title in
  "{ video_posters(func: eq(title, " +:+ dq +:+ esc +:+ dq
  +:+ ")) { uid title ~posts { uid username } } }".

Definition query_video_posters_reverse (video_title : string) : M E pyval :=
  run_query (query_video_posters_reverse_q video_title) "video_posters".

Definition query_videos_sorted (desc : bool) : M E pyval :=
  let q :=
    if desc
    then "{ videos_sorted(func: type(Video), orderdesc: duration) { uid title duration } }"
    else "{ videos_sorted(func: type(Video), orderasc: duration) { uid title duration } }" in
  run_query q "videos_sorted".

Definition query_video_count : M E pyval :=
  txn <- client_txn true ;;
  try_finally
    (res <- txn_query txn
              "{ video_count(func: type(Video)) { count: count(uid) } }" ;;
     data <- lift (json_loads res) ;;
     items <- lift (py_get data "video_count" (PList [])) ;;
     if py_truthy items
     then item <- lift (py_item0 items) ;;
          lift (py_get item "count" (PInt 0))
     else ret (PInt 0))
    (txn_discard txn).

Definition query_videos_paged_q (first offset : Z) : string :=
  "{ paged_videos(func: type(Video), first: " +:+ pretty first
  +:+ ", offset: " +:+ pretty offset +:+ ", orderasc: title) { uid title } }".

Definition query_videos_paged (first offset : Z) : M E pyval :=
  run_query (query_videos_paged_q first offset) "paged_videos".

(** ** Delete *)

Definition delete_comment_q (comment_text : string) : string :=
  "{ comments(func: anyoftext(text, " +:+ dq +:+ comment_text +:+ dq
  +:+ ")) { uid } }".

(** The result is what the Python call evaluates to: [0] after the
    early [return 0], [None] when the function runs off its end. *)
Definition delete_comment (comment_text : string) : M E pyval :=
  let query := delete_comment_q comment_text in
  txn <- client_txn true ;;
  uids <- try_finally
    (res <- txn_query txn query ;;
     data <- lift (json_loads res) ;;
     comments <- lift (py_get data "comments" (PList [])) ;;
     lift (rbind (py_iter comments) uids_of))
    (txn_discard txn) ;;
  match uids with
  | [] =>
      print (OutStr ("No comments found matching: '" +:+ comment_text +:+ "'")) ;;
      ret (PInt 0)
  | _ :: _ =>
      let deletes := List.map (fun uid => PDict [("uid", uid)]) uids in
      txn <- client_txn false ;;
      try_finally
        (print (OutStr ("Deleting " +:+ pretty (length deletes)
                        +:+ " comment(s) matching: '" +:+ comment_text +:+ "'")) ;;
         txn_mutate txn (DelObj (PList deletes)) ;;
         txn_commit txn)
        (txn_discard txn) ;;
      ret PNone
  end.

(** ** The pagination branch of [main] (option 8)

    [first] and [offset] are the two lines read by [input]. *)
Definition main_option_8 (first offset : string) : M E unit :=
  page <- try_except
    (first_i <- lift (int_of_str first) ;;
     offset_i <- lift (int_of_str offset) ;;
     ret (first_i, offset_i))
    (fun _ =>
       print (OutStr "Invalid pagination values; using defaults.") ;;
       ret (2%Z, 0%Z)) ;;
  results <- query_videos_paged page.1 page.2 ;;
  if py_truthy results
  then print (OutJson results)
  else print (OutStr "No videos on that page.").
End Queries.

(** ** Notions used by the statements *)

(** The blank-node name of a record: its ['uid'] without the [_:]. *)
Definition blank_name (v : pyval) : option string :=
  match v with
  | PDict d =>
      match assoc_get "uid" d with
      | Some (PStr (String "_"%char (String ":"%char name))) => Some name
      | _ => None
      end
  | _ => None
  end.

(** What the uid helper is expected to compute from the decoded response:
    the ['uid'] of the first item of the list under [key], and [None] in
    every other case. *)
Definition first_uid_spec (decoded : result pyval) (key : string) : pyval :=
  match decoded with
  | inl _ => PNone                                  (* malformed JSON *)
  | inr (PDict d) =>
      match assoc_get key d with
      | None => PNone                               (* key absent *)
      | Some (PList []) => PNone                    (* empty list *)
      | Some (PList (PDict item :: _)) =>
          match assoc_get "uid" item with
          | Some u => u
          | None => PNone                           (* first item has no uid *)
          end
      | Some _ => PNone                             (* no list of objects *)
      end
  | inr _ => PNone                                  (* not an object *)
  end.

(** Every double quote of [s] stands right after a backslash. *)
Fixpoint quotes_escaped_after (prev : ascii) (s : string) : bool :=
  match s with
  | EmptyString => true
  | String c r =>
      (negb (Ascii.eqb c dquote) || Ascii.eqb prev backslash)
      && quotes_escaped_after c r
  end.

Definition quotes_escaped (s : string) : bool :=
  quotes_escaped_after " "%char s.

(** Classes of events. *)
Definition is_mutate (e : event) : bool :=
  match e with
  | EvMutate _ _ => true
  | _ => false
  end.

Definition is_txn (e : event) : bool :=
  match e with
  | EvTxn _ => true
  | _ => false
  end.

Definition is_engine_call (e : event) : bool :=
  match e with
  | EvPrint _ => false
  | _ => true
  end.

(** A transaction is released in a trace when it was committed or
    discarded there. *)
Definition released (t : txn) (tr : list event) : Prop :=
  In (EvCommit t) tr \/ In (EvDiscard t) tr.

(** Runs the steps in order and stops at the first one that raises. *)
Fixpoint run_steps {E} (steps : list (M E unit)) : M E unit :=
  match steps with
  | [] => ret tt
  | m :: r => m ;; run_steps r
  end.

Section Steps.
Context {E : Type} `{Dgraph E} `{Host}.

(** A node load as a step: its result is not used by [create_data]. *)
Definition step {A} (m : M E A) : M E unit := m ;; ret tt.

(** The thirteen load steps of [create_data], in source order. *)
Definition load_steps : list (M E unit) :=
  [step (load_comments COMMENTS_PATH);
   step (load_playlists PLAYLISTS_PATH);
   step (load_users USERS_PATH);
   step (load_videos VIDEOS_PATH);
   load_comment_replies_comment COMMENT_REPLIES_COMMENT;
   load_comment_replies_video COMMENT_REPLIES_VIDEO;
   load_playlist_contains_video PLAYLIST_CONTAINS_VIDEO;
   load_user_comments USER_COMMENTS;
   load_user_creates_playlist USER_CREATES_PLAYLIST;
   load_user_likes_comment USER_LIKES_COMMENT;
   load_user_likes_video USER_LIKES_VIDEO;
   load_user_posts_video USER_POSTS_VIDEO;
   load_user_saves_video USER_SAVES_VIDEO].

(** What option 8 does with the page it was given. *)
Definition show_page (results : pyval) : M E unit :=
  if py_truthy results
  then print (OutJson results)
  else print (OutStr "No videos on that page.").

(** The four node loaders with their temporary reference prefix. *)
Definition node_loaders : list (string * (string -> M E (gmap string string))) :=
  [("_:c", load_comments); ("_:p", load_playlists);
   ("_:u", load_users); ("_:v", load_videos)].
End Steps.

(** The temporary reference of a node record. *)
Definition temp_ref (v : pyval) : option pyval :=
  match v with
  | PDict d => assoc_get "uid" d
  | _ => None
  end.

(** The temporary references [tmp1 .. tmpN]. *)
Definition temp_refs (tmp : string) (n : nat) : list string :=
  List.map (fun i => tmp +:+ pretty i) (seq 1 n).

(** The engine gave one identifier to each blank node of the batch and to
    nothing else. *)
Definition one_uid_per_blank_node (batch : list pyval)
    (uids : gmap string string) : Prop :=
  dom uids = list_to_set (omap blank_name batch).


Section RowNotions.
Context {E : Type} `{Dgraph E} `{Host}.

(** Both lookups of a row answer and both answers have a first uid. *)
Definition resolved (rel : relation) (v1 v2 : string) (s : state E)
    (uid1 uid2 : pyval) : Prop :=
  let o1 := lookup (rel_compact rel) (rel_first rel) v1 s in
  let o2 := lookup (rel_compact rel) (rel_second rel) v2 (st o1) in
  exists resp1 resp2,
    res o1 = inr resp1 /\ res o2 = inr resp2
    /\ uid1 = _first_uid_from_query resp1 (ep_block (rel_first rel))
    /\ uid2 = _first_uid_from_query resp2 (ep_block (rel_second rel))
    /\ is_None uid1 = false /\ is_None uid2 = false.

(** The lookups the source performs for the row answer, and one of the
    answers it inspects has no first uid.  A loader that sends both
    queries before it looks at the first answer needs both to answer;
    the others send the second query only when the first end resolved. *)
Definition unresolved (rel : relation) (v1 v2 : string) (s : state E) : Prop :=
  let o1 := lookup (rel_compact rel) (rel_first rel) v1 s in
  let o2 := lookup (rel_compact rel) (rel_second rel) v2 (st o1) in
  exists resp1,
    res o1 = inr resp1 /\
    let none1 :=
      is_None (_first_uid_from_query resp1 (ep_block (rel_first rel))) in
    if rel_eager rel
    then exists resp2,
           res o2 = inr resp2
           /\ (none1 = true
               \/ is_None (_first_uid_from_query resp2
                             (ep_block (rel_second rel))) = true)
    else none1 = true
         \/ exists resp2,
              res o2 = inr resp2
              /\ is_None (_first_uid_from_query resp2
                            (ep_block (rel_second rel))) = true.
End RowNotions.

(** A skipped row leaves only read-only lookups and prints behind. *)
Definition lookup_or_print (e : event) : Prop :=
  match e with
  | EvTxn t => txn_read_only t = true
  | EvQuery t _ => txn_read_only t = true
  | EvPrint _ => True
  | _ => False
  end.

(** Every query of the trace that filters on the comment text does so
    with the full-text function. *)
Definition comment_lookups_are_fulltext (tr : list event) : Prop :=
  forall t q,
    In (EvQuery t q) tr ->
    is_substring "(text, " q = true ->
    is_substring "anyoftext(text, " q = true.

(** Every transaction opened in the trace is discarded in it. *)
Definition all_released (tr : list event) : Prop :=
  forall t, In (EvTxn t) tr -> In (EvDiscard t) tr.

(** Every write transaction opened in the trace is discarded in it. *)
Definition writes_released (tr : list event) : Prop :=
  forall t, In (EvTxn t) tr -> txn_read_only t = false -> In (EvDiscard t) tr.

(** No read-only transaction opened in the trace is committed or
    discarded in it. *)
Definition lookups_left_open (tr : list event) : Prop :=
  forall t, In (EvTxn t) tr -> txn_read_only t = true -> ~ released t tr.

(** The event opens no transaction. *)
Definition opens_nothing (e : event) : Prop := is_txn e = false.

(** The event closes no read-only transaction. *)
Definition closes_no_lookup (e : event) : Prop :=
  match e with
  | EvCommit t | EvDiscard t => txn_read_only t = false
  | _ => True
  end.

(** A property of traces holds of every run of a computation. *)
Definition always {E A} (P : list event -> Prop) (m : M E A) : Prop :=
  forall s, P (evs (m s)).

(** Properties of traces that the empty trace has and that appending
    preserves. *)
Class Additive (P : list event -> Prop) : Prop := {
  additive_nil : P [];
  additive_app : forall a b, P a -> P b -> P (a ++ b)
}.

(** The trace holds a complete run of the computation, from some state. *)
Definition executed {E A} (m : M E A) (tr : list event) : Prop :=
  exists s before after, tr = before ++ evs (m s) ++ after.
(** ** A concrete host and a concrete engine

    The theorems below hold for every host and every engine.  To run the
    program on concrete inputs this section provides one of each: a decoder
    for the JSON that Dgraph responses are written in, a reader of decimal
    integers, a table-driven file system, and an engine that answers queries
    from a table and numbers the nodes it creates. *)

Module Fixture.

Definition is_ws (c : ascii) : bool :=
  Ascii.eqb c " "%char || Ascii.eqb c "009"%char
  || Ascii.eqb c "010"%char || Ascii.eqb c "013"%char.

Fixpoint skip_ws (s : string) : string :=
  match s with
  | String c r => if is_ws c then skip_ws r else s
  | EmptyString => s
  end.

Definition digit_of (c : ascii) : option Z :=
  let n := Z.of_nat (nat_of_ascii c) in
  if (48 <=? n)%Z && (n <=? 57)%Z then Some (n - 48)%Z else None.

Definition hex_of (c : ascii) : option N :=
  let n := N_of_ascii c in
  if (48 <=? n)%N && (n <=? 57)%N then Some (n - 48)%N
  else if (65 <=? n)%N && (n <=? 70)%N then Some (n - 55)%N
  else if (97 <=? n)%N && (n <=? 102)%N then Some (n - 87)%N
  else None.

(** UTF-8 of a code point of the basic plane, prepended to [k];
    surrogates are not decoded. *)
Definition utf8 (cp : N) (k : string) : option string :=
  if (cp <? 128)%N then Some (String (ascii_of_N cp) k)
  else if (cp <? 2048)%N then
    Some (String (ascii_of_N (192 + cp / 64))
         (String (ascii_of_N (128 + cp mod 64)) k))
  else if (55296 <=? cp)%N && (cp <=? 57343)%N then None
  else
    Some (String (ascii_of_N (224 + cp / 4096))
         (String (ascii_of_N (128 + (cp / 64) mod 64))
         (String (ascii_of_N (128 + cp mod 64)) k))).

(** The characters of a string literal after its opening quote, up to
    the closing quote; the rest of the input comes back with them. *)
Fixpoint str_body (s : string) : option (string * string) :=
  match s with
  | EmptyString => None
  | String c r =>
      if Ascii.eqb c dquote then Some (EmptyString, r)
      else if Ascii.eqb c backslash then
        match r with
        | String e r' =>
            let simple (x : ascii) :=
              match str_body r' with
              | Some (b, rest) => Some (String x b, rest)
              | None => None
              end in
            if Ascii.eqb e dquote then simple dquote
            else if Ascii.eqb e backslash then simple backslash
            else if Ascii.eqb e "/"%char then simple "/"%char
            else if Ascii.eqb e "b"%char then simple "008"%char
            else if Ascii.eqb e "f"%char then simple "012"%char
            else if Ascii.eqb e "n"%char then simple "010"%char
            else if Ascii.eqb e "r"%char then simple "013"%char
            else if Ascii.eqb e "t"%char then simple "009"%char
            else if Ascii.eqb e "u"%char then
              match r' with
              | String h1 (String h2 (String h3 (String h4 r''))) =>
                  match hex_of h1, hex_of h2, hex_of h3, hex_of h4,
                        str_body r'' with
                  | Some a, Some b, Some c', Some d, Some (body, rest) =>
                      match utf8 (((a * 16 + b) * 16 + c') * 16 + d)%N body with
                      | Some body' => Some (body', rest)
                      | None => None
                      end
                  | _, _, _, _, _ => None
                  end
              | _ => None
              end
            else None
        | EmptyString => None
        end
      else if (N_of_ascii c <? 32)%N then None
      else
        match str_body r with
        | Some (b, rest) => Some (String c b, rest)
        | None => None
        end
  end.

(** The digits at the head of [s], as a number continuing [acc]. *)
Fixpoint digits (s : string) (acc : Z) : Z * string :=
  match s with
  | String c r =>
      match digit_of c with
      | Some d => digits r (10 * acc + d)%Z
      | None => (acc, s)
      end
  | EmptyString => (acc, s)
  end.

(** An integer literal: [0], or a non-zero digit and more digits.  A
    fraction or an exponent makes a float, which this decoder leaves
    undecoded. *)
Definition number (s : string) : option (Z * string) :=
  match s with
  | String c r =>
      match digit_of c with
      | Some d =>
          let (n, rest) := if (d =? 0)%Z then (0%Z, r) else digits r d in
          match rest with
          | String x _ =>
              if Ascii.eqb x "."%char || Ascii.eqb x "e"%char
                 || Ascii.eqb x "E"%char
              then None else Some (n, rest)
          | EmptyString => Some (n, rest)
          end
      | None => None
      end
  | EmptyString => None
  end.

Definition drop_prefix (p s : string) : option string :=
  if is_prefix p s
  then Some (String.substring (String.length p)
               (String.length s - String.length p) s)
  else None.

(** [d[k] = v] on a dict in insertion order. *)
Fixpoint dict_set (k : string) (v : pyval) (d : list (string * pyval))
  : list (string * pyval) :=
  match d with
  | [] => [(k, v)]
  | (k', v') :: r =>
      if String.eqb k k' then (k, v) :: r else (k', v') :: dict_set k v r
  end.

Section Composite.
Variable value : string -> option (pyval * string).

(** After [[] and a first element test: elements separated by commas. *)
Fixpoint elements (n : nat) (acc : list pyval) (s : string)
  : option (pyval * string) :=
  match n with
  | O => None
  | S n' =>
      match value s with
      | Some (v, r) =>
          match skip_ws r with
          | String c r' =>
              if Ascii.eqb c ","%char then elements n' (acc ++ [v]) r'
              else if Ascii.eqb c "]"%char then Some (PList (acc ++ [v]), r')
              else None
          | EmptyString => None
          end
      | None => None
      end
  end.

Fixpoint members (n : nat) (acc : list (string * pyval)) (s : string)
  : option (pyval * string) :=
  match n with
  | O => None
  | S n' =>
      match skip_ws s with
      | String q r =>
          if Ascii.eqb q dquote then
            match str_body r with
            | Some (k, r1) =>
                match skip_ws r1 with
                | String c r2 =>
                    if Ascii.eqb c ":"%char then
                      match value r2 with
                      | Some (v, r3) =>
                          match skip_ws r3 with
                          | String c' r4 =>
                              if Ascii.eqb c' ","%char
                              then members n' (dict_set k v acc) r4
                              else if Ascii.eqb c' "}"%char
                              then Some (PDict (dict_set k v acc), r4)
                              else None
                          | EmptyString => None
                          end
                      | None => None
                      end
                    else None
                | EmptyString => None
                end
            | None => None
            end
          else None
      | EmptyString => None
      end
  end.
End Composite.

Fixpoint value (fuel : nat) (s : string) : option (pyval * string) :=
  match fuel with
  | O => None
  | S fuel' =>
      match skip_ws s with
      | EmptyString => None
      | String c r as s' =>
          if Ascii.eqb c dquote then
            match str_body r with
            | Some (x, rest) => Some (PStr x, rest)
            | None => None
            end
          else if Ascii.eqb c "["%char then
            match skip_ws r with
            | String "]"%char rest => Some (PList [], rest)
            | _ => elements (value fuel') fuel' [] r
            end
          else if Ascii.eqb c "{"%char then
            match skip_ws r with
            | String "}"%char rest => Some (PDict [], rest)
            | _ => members (value fuel') fuel' [] r
            end
          else if Ascii.eqb c "-"%char then
            match drop_prefix "Infinity" r, number r with
            | Some rest, _ => Some (PFloat (S754_infinity true), rest)
            | None, Some (n, rest) => Some (PInt (- n), rest)
            | None, None => None
            end
          else
            match drop_prefix "null" s', drop_prefix "true" s',
                  drop_prefix "false" s', drop_prefix "NaN" s',
                  drop_prefix "Infinity" s' with
            | Some rest, _, _, _, _ => Some (PNone, rest)
            | _, Some rest, _, _, _ => Some (PBool true, rest)
            | _, _, Some rest, _, _ => Some (PBool false, rest)
            | _, _, _, Some rest, _ => Some (PFloat S754_nan, rest)
            | _, _, _, _, Some rest => Some (PFloat (S754_infinity false), rest)
            | None, None, None, None, None =>
                match number s' with
                | Some (n, rest) => Some (PInt n, rest)
                | None => None
                end
            end
      end
  end.

(** The decoder: one value, then nothing but blanks. *)
Definition decode (s : string) : result pyval :=
  match value (S (String.length s)) s with
  | Some (v, rest) =>
      match skip_ws rest with
      | EmptyString => inr v
      | String _ _ => inl (JSONDecodeError "Extra data")
      end
  | None => inl (JSONDecodeError "Expecting value")
  end.
(** [int(s)] for ASCII text: blanks around, a sign, decimal digits, a
    single underscore allowed between two digits. *)
Definition is_space (c : ascii) : bool :=
  is_ws c || Ascii.eqb c "011"%char || Ascii.eqb c "012"%char.

Fixpoint all_space (s : string) : bool :=
  match s with
  | EmptyString => true
  | String c r => is_space c && all_space r
  end.

Fixpoint int_digits (s : string) (acc : Z) (after_digit : bool) : option Z :=
  match s with
  | EmptyString => if after_digit then Some acc else None
  | String c r =>
      match digit_of c with
      | Some d => int_digits r (10 * acc + d)%Z true
      | None =>
          if Ascii.eqb c "_"%char
          then if after_digit then int_digits r acc false else None
          else if after_digit && all_space s then Some acc else None
      end
  end.

Fixpoint skip_space (s : string) : string :=
  match s with
  | String c r => if is_space c then skip_space r else s
  | EmptyString => s
  end.

Definition read_int (s : string) : result Z :=
  let bad := inl (ValueError "invalid literal for int() with base 10") in
  match skip_space s with
  | String c r =>
      if Ascii.eqb c "-"%char then
        match int_digits r 0 false with
        | Some n => inr (- n)%Z
        | None => bad
        end
      else if Ascii.eqb c "+"%char then
        match int_digits r 0 false with
        | Some n => inr n
        | None => bad
        end
      else
        match int_digits (String c r) 0 false with
        | Some n => inr n
        | None => bad
        end
  | EmptyString => bad
  end.

(** The file system: the root, and the CSV files that exist with their
    rows and the error, if any, that ends their reading. *)
Definition files : Type := list (string * (list row * option exn)).

Fixpoint find_file (p : string) (fs : files) : option (list row * option exn) :=
  match fs with
  | [] => None
  | (p', c) :: r => if String.eqb p p' then Some c else find_file p r
  end.

Definition host (root : string) (fs : files) : Host :=
  {| project_root := root;
     isfile := fun p => bool_decide (is_Some (find_file p fs));
     open_csv := fun p =>
       match find_file p fs with
       | Some c => inr c
       | None => inl (OSError "No such file or directory")
       end;
     json_loads := decode;
     int_of_str := read_int |}.

(** The engine: canned answers by query text ([{}] for any other query),
    and a counter for the identifiers it hands out. *)
Record store : Type := {
  answers : list (string * string);
  next_uid : N
}.

Fixpoint answer (q : string) (a : list (string * string)) : string :=
  match a with
  | [] => "{}"
  | (q', r) :: a' => if String.eqb q q' then r else answer q a'
  end.

Fixpoint assign (objs : list pyval) (n : N) (m : gmap string string)
  : gmap string string * N :=
  match objs with
  | [] => (m, n)
  | o :: r =>
      match blank_name o with
      | Some name =>
          match m !! name with
          | Some _ => assign r n m
          | None => assign r (N.succ n) (<[name := "0x" +:+ pretty n]> m)
          end
      | None => assign r n m
      end
  end.

Definition mutate (e : store) (m : mutation)
  : result (gmap string string) * store :=
  match m with
  | SetObj (PList objs) =>
      let (uids, n) := assign objs (next_uid e) ∅ in
      (inr uids, {| answers := answers e; next_uid := n |})
  | SetObj o =>
      let (uids, n) := assign [o] (next_uid e) ∅ in
      (inr uids, {| answers := answers e; next_uid := n |})
  | DelObj _ => (inr ∅, e)
  end.

Definition dgraph : Dgraph store :=
  {| dg_query := fun e _ q => (inr (answer q (answers e)), e);
     dg_mutate := fun e t m =>
       if txn_read_only t
       then (inl (DgraphError "readonly transaction cannot run mutations"), e)
       else mutate e m;
     dg_commit := fun e _ => (inr tt, e);
     dg_discard := fun e _ => (inr tt, e) |}.

Definition start (a : list (string * string)) : state store :=
  {| engine := {| answers := a; next_uid := 1 |}; next_txn := 0 |}.

(** JSON text of Dgraph answers, for the tables of the examples. *)
Definition quoted (s : string) : string := dq +:+ s +:+ dq.

Fixpoint uid_items (uids : list string) : string :=
  match uids with
  | [] => EmptyString
  | [u] => "{" +:+ quoted "uid" +:+ ":" +:+ quoted u +:+ "}"
  | u :: r => "{" +:+ quoted "uid" +:+ ":" +:+ quoted u +:+ "}," +:+ uid_items r
  end.

Definition uid_answer (block : string) (uids : list string) : string :=
  "{" +:+ quoted block +:+ ":[" +:+ uid_items uids +:+ "]}".
End Fixture.

(** ** Example inputs *)

Module Examples.
Import Fixture.

Definition root : string := "/app".

Definition nodes_csv (name : string) : string := "/app/data/nodes/" +:+ name.
Definition edges_csv (name : string) : string := "/app/data/edges/" +:+ name.

Definition csv (rows : list row) : list row * option exn := (rows, None).

Definition comment_rows : list row :=
  [ {[ "text" := Some "hello world" ]};
    {[ "text" := Some "hello there" ]};
    {[ "text" := Some "goodbye" ]} ].

Definition video_rows : list row :=
  [ {[ "title" := Some "Intro"; "description" := Some "first steps";
       "duration" := Some "15"; "date_uploaded" := Some "2025-11-23" ]} ].

Definition user_rows : list row :=
  [ {[ "username" := Some "ana"; "email" := Some "ana@example.org";
       "location.lat" := Some "20.6"; "location.long" := Some "-103.3" ]} ].

(** A playlists file whose header has no [visibility] column. *)
Definition playlist_rows_without_visibility : list row :=
  [ {[ "title" := Some "Mix" ]} ].

Definition empty_edge_files : files :=
  List.map (fun name => (edges_csv name, csv []))
    ["comment_replies_comment.csv"; "comment_replies_video.csv";
     "playlist_contains_video.csv"; "user_comments.csv";
     "user_creates_playlist.csv"; "user_likes_comment.csv";
     "user_likes_video.csv"; "user_posts_video.csv"; "user_saves_video.csv"].

(** All thirteen files are there; the playlists file is the broken one. *)
Definition broken_playlists : files :=
  [ (nodes_csv "comments.csv", csv comment_rows);
    (nodes_csv "playlists.csv", csv playlist_rows_without_visibility);
    (nodes_csv "users.csv", csv user_rows);
    (nodes_csv "videos.csv", csv video_rows) ] ++ empty_edge_files.

(** Only the comments file is there. *)
Definition only_comments : files :=
  [ (nodes_csv "comments.csv", csv comment_rows) ].

(** A row of [comment_replies_comment.csv]. *)
Definition reply_row : row :=
  {[ "comment_text" := Some "hello there";
     "replied_to_text" := Some "hello world" ]}.

(** The node files and one reply in [comment_replies_comment.csv]. *)
Definition one_reply : files :=
  (edges_csv "comment_replies_comment.csv", csv [reply_row])
  :: broken_playlists.

Definition broken_host : Host := host root broken_playlists.
Definition reply_host : Host := host root one_reply.
Definition comments_host : Host := host root only_comments.
Definition bare_host : Host := host root [].

(** The answers of an engine that knows both comments of [reply_row]. *)
Definition reply_answers : list (string * string) :=
  [ (lookup_query true (rel_first comment_replies_comment) "hello there",
     uid_answer "comment" ["0x2"]);
    (lookup_query true (rel_second comment_replies_comment) "hello world",
     uid_answer "comment" ["0x1"; "0x7"]) ].

(** A row of [user_comments.csv] whose user the engine does not know. *)
Definition orphan_row : row :=
  {[ "username" := Some "zoe"; "comment_text" := Some "goodbye" ]}.

Definition orphan_answers : list (string * string) :=
  [ (lookup_query false user_end "zoe", uid_answer "user" []) ].

(** The engine of the delete example: two comments match [hello]. *)
Definition hello_answers : list (string * string) :=
  [ ("{ comments(func: anyoftext(text, " +:+ quoted "hello" +:+ ")) { uid } }",
     uid_answer "comments" ["0x1"; "0x2"]) ].

Definition the_uids : gmap string string :=
  {[ "c1" := "0x1"; "c2" := "0x2"; "c3" := "0x3" ]}.

(** The transactions of the runs below, by number. *)
Definition lookup_txn (n : nat) : txn := {| txn_id := n; txn_read_only := true |}.
Definition write_txn (n : nat) : txn := {| txn_id := n; txn_read_only := false |}.
End Examples.

(** ** The duration option of [main] *)

Section MainOptions.
Context {E : Type} `{Dgraph E} `{Host}.

(** Option 3; [min_duration] is the line read by [input], and
    [int(input(...))] stands outside any [try] of its own. *)
Definition main_option_3 (min_duration : string) : M E unit :=
  min_duration <- lift (int_of_str min_duration) ;;
  results <- query_by_numeric_duration min_duration ;;
  if py_truthy results
  then print (OutJson results)
  else print (OutStr "No videos match the duration filter.").

End MainOptions.

(** ** More notions for the statements *)

Definition is_query (e : event) : bool :=
  match e with
  | EvQuery _ _ => true
  | _ => false
  end.

Definition is_commit (e : event) : bool :=
  match e with
  | EvCommit _ => true
  | _ => false
  end.

(** How many events of a class a trace holds. *)
Definition count_events (p : event -> bool) (tr : list event) : nat :=
  length (List.filter p tr).

(** The event does not write: it is no mutation and no commit. *)
Definition reads_only (e : event) : Prop :=
  is_mutate e = false /\ is_commit e = false.

(** The event respects the mode of its transaction: queries run in
    read-only transactions, mutations and commits in write transactions,
    and a mutation sets, it does not delete. *)
Definition load_discipline (e : event) : Prop :=
  match e with
  | EvQuery t _ => txn_read_only t = true
  | EvMutate t (SetObj _) => txn_read_only t = false
  | EvMutate _ (DelObj _) => False
  | EvCommit t => txn_read_only t = false
  | _ => True
  end.

(** The event submits a batch of node records. *)
Definition is_batch (e : event) : bool :=
  match e with
  | EvMutate _ (SetObj (PList _)) => true
  | _ => false
  end.

(** The event is the first line of an error report. *)
Definition is_error_report (e : event) : bool :=
  match e with
  | EvPrint (OutError _) => true
  | _ => false
  end.

(** A trace in two phases: a first part whose events all satisfy [P]
    and a second part whose events all satisfy [Q]. *)
Definition phased (P Q : event -> Prop) (tr : list event) : Prop :=
  exists first second, tr = first ++ second /\ Forall P first /\ Forall Q second.

(** The uids of the dicts of a list that have one. *)
Definition dict_uids (ds : list (list (string * pyval))) : list pyval :=
  omap (assoc_get "uid") ds.

(** A root that [os.path.join] extends with a separator: it is not empty
    and does not end with a slash. *)
Definition plain_root (root : string) : Prop :=
  root <> EmptyString /\ ends_with_slash root = false.

(** The thirteen data files below the project root. *)
Definition data_files : list string :=
  ["/data/nodes/comments.csv"; "/data/nodes/playlists.csv";
   "/data/nodes/users.csv"; "/data/nodes/videos.csv";
   "/data/edges/comment_replies_comment.csv";
   "/data/edges/comment_replies_video.csv";
   "/data/edges/playlist_contains_video.csv";
   "/data/edges/user_comments.csv";
   "/data/edges/user_creates_playlist.csv";
   "/data/edges/user_likes_comment.csv";
   "/data/edges/user_likes_video.csv";
   "/data/edges/user_posts_video.csv";
   "/data/edges/user_saves_video.csv"].

(** The subject and the object of the edge a loader writes, from the
    uids of its first and second lookup. *)
Definition edge_ends (rel : relation) (uid1 uid2 : pyval) : pyval * pyval :=
  if String.eqb (rel_predicate rel) "replies_to_c_c"
  then (uid2, uid1)
  else (uid1, uid2).

(** What [delete_comment] may send: its query in a read-only
    transaction, and in a write transaction a [del_obj] of one or more
    objects that name a uid and nothing else. *)
Definition delete_discipline (e : event) : Prop :=
  match e with
  | EvQuery t _ => txn_read_only t = true
  | EvMutate t (DelObj (PList objs)) =>
      txn_read_only t = false
      /\ objs <> []
      /\ Forall (fun o => exists uid, o = PDict [("uid", uid)]) objs
  | EvMutate _ _ => False
  | EvCommit t => txn_read_only t = false
  | _ => True
  end.

(** ** More example inputs *)

Module MoreExamples.
Import Fixture Examples.

(** A comments file whose second line has no [text] cell. *)
Definition ragged_comments : files :=
  [ (nodes_csv "comments.csv",
     csv [ {[ "text" := Some "hello world" ]}; ∅ ]) ].

(** A comments file with a header and no line. *)
Definition no_comments : files := [ (nodes_csv "comments.csv", csv []) ].

Definition ragged_host : Host := host root ragged_comments.
Definition empty_host : Host := host root no_comments.

(** A row of [user_comments.csv] without the [comment_text] column. *)
Definition short_row : row := {[ "username" := Some "ana" ]}.

(** An engine that is down: every call raises. *)
Definition down : Dgraph unit :=
  {| dg_query := fun e _ _ => (inl (DgraphError "unavailable"), e);
     dg_mutate := fun e _ _ => (inl (DgraphError "unavailable"), e);
     dg_commit := fun e _ => (inl (DgraphError "unavailable"), e);
     dg_discard := fun e _ => (inl (DgraphError "unavailable"), e) |}.

Definition down_start : state unit := {| engine := tt; next_txn := 0 |}.

(** The engine of the count example: three videos. *)
Definition count_answers : list (string * string) :=
  [ ("{ video_count(func: type(Video)) { count: count(uid) } }",
     "{" +:+ quoted "video_count" +:+ ":[{" +:+ quoted "count" +:+ ":3}]}") ].
End MoreExamples.

(** * Properties *)

(** ** The monad *)

Section MonadFacts.
Context {E : Type}.

Lemma outcome_eq {A} (o o' : outcome E A) :
  res o = res o' -> st o = st o' -> evs o = evs o' -> o = o'.
Proof. destruct o, o'; simpl; intros; subst; reflexivity. Qed.

Lemma bind_raise {A B} (m : M E A) (f : A -> M E B) s e :
  res (m s) = inl e ->
  bind m f s = {| res := inl e; st := st (m s); evs := evs (m s) |}.
Proof. intros Hm. unfold bind. rewrite Hm. reflexivity. Qed.

Lemma lift_res {A} (r : result A) (s : state E) : res (lift r s) = r.
Proof. destruct r; reflexivity. Qed.

Lemma lift_st {A} (r : result A) (s : state E) : st (lift r s) = s.
Proof. destruct r; reflexivity. Qed.

Lemma lift_evs {A} (r : result A) (s : state E) : evs (lift r s) = [].
Proof. destruct r; reflexivity. Qed.

Lemma bind_res {A B} (m : M E A) (f : A -> M E B) s :
  res (bind m f s)
  = match res (m s) with
    | inl e => inl e
    | inr a => res (f a (st (m s)))
    end.
Proof. unfold bind. destruct (res (m s)); reflexivity. Qed.

Lemma bind_st {A B} (m : M E A) (f : A -> M E B) s :
  st (bind m f s)
  = match res (m s) with
    | inl e => st (m s)
    | inr a => st (f a (st (m s)))
    end.
Proof. unfold bind. destruct (res (m s)); reflexivity. Qed.

Lemma bind_evs {A B} (m : M E A) (f : A -> M E B) s :
  evs (bind m f s)
  = evs (m s) ++ match res (m s) with
                 | inl e => []
                 | inr a => evs (f a (st (m s)))
                 end.
Proof.
  unfold bind. destruct (res (m s)); simpl; [|reflexivity].
  symmetry. apply app_nil_r.
Qed.

Lemma try_finally_res {A} (body : M E A) (fin : M E unit) s :
  res (try_finally body fin s)
  = match res (fin (st (body s))) with
    | inl e => inl e
    | inr _ => res (body s)
    end.
Proof. reflexivity. Qed.

Lemma try_finally_st {A} (body : M E A) (fin : M E unit) s :
  st (try_finally body fin s) = st (fin (st (body s))).
Proof. reflexivity. Qed.

Lemma try_finally_evs {A} (body : M E A) (fin : M E unit) s :
  evs (try_finally body fin s) = evs (body s) ++ evs (fin (st (body s))).
Proof. reflexivity. Qed.

Lemma try_except_res {A} (body : M E A) (handler : exn -> M E A) s :
  res (try_except body handler s)
  = match res (body s) with
    | inl e => res (handler e (st (body s)))
    | inr a => inr a
    end.
Proof. unfold try_except. destruct (res (body s)) eqn:Hb; simpl; congruence. Qed.

Lemma try_except_st {A} (body : M E A) (handler : exn -> M E A) s :
  st (try_except body handler s)
  = match res (body s) with
    | inl e => st (handler e (st (body s)))
    | inr a => st (body s)
    end.
Proof. unfold try_except. destruct (res (body s)); reflexivity. Qed.

Lemma try_except_evs {A} (body : M E A) (handler : exn -> M E A) s :
  evs (try_except body handler s)
  = evs (body s) ++ match res (body s) with
                    | inl e => evs (handler e (st (body s)))
                    | inr a => []
                    end.
Proof.
  unfold try_except. destruct (res (body s)); simpl; [reflexivity|].
  symmetry. apply app_nil_r.
Qed.

Lemma run_steps_app (pre post : list (M E unit)) s :
  res (run_steps pre s) = inr tt ->
  run_steps (pre ++ post) s
  = {| res := res (run_steps post (st (run_steps pre s)));
       st := st (run_steps post (st (run_steps pre s)));
       evs := evs (run_steps pre s) ++ evs (run_steps post (st (run_steps pre s))) |}.
Proof.
  revert s. induction pre as [|m pre IH]; intros s Hpre; simpl in *.
  - apply outcome_eq; reflexivity.
  - unfold bind in *. destruct (res (m s)) as [e|[]] eqn:Hm; simpl in *.
    + discriminate.
    + rewrite (IH _ Hpre). simpl. rewrite app_assoc. reflexivity.
Qed.
End MonadFacts.

Create Rewrite HintDb run.
#[export] Hint Rewrite @bind_res @bind_st @bind_evs
  @try_finally_res @try_finally_st @try_finally_evs
  @try_except_res @try_except_st @try_except_evs
  @lift_res @lift_st @lift_evs : run.

(** Symbolic execution of a computation: push [res], [st] and [evs]
    through the combinators, then compute the primitive calls. *)
Ltac run :=
  repeat (autorewrite with run;
          cbn [res st evs client_txn ret raise emit print call
               txn_query txn_mutate txn_commit txn_discard
               engine next_txn fst snd]).


Tactic Notation "run" "in" hyp(H) :=
  repeat (progress (autorewrite with run in H;
          cbn [res st evs client_txn ret raise emit print call
               txn_query txn_mutate txn_commit txn_discard
               engine next_txn fst snd] in H)).

(** Case analysis on the innermost scrutinee a hypothesis is stuck on. *)
Ltac case_in H :=
  match type of H with
  | context [match ?x with _ => _ end] =>
      lazymatch x with
      | context [match _ with _ => _ end] => fail
      | _ => destruct x eqn:?
      end
  end.

(** Replaces a closed term by its value in a hypothesis; the equation is
    checked by evaluation. *)
Ltac evaluate t H :=
  let v := eval vm_compute in t in
  let Heq := fresh "Heq" in
  assert (Heq : t = v) by (vm_compute; reflexivity);
  rewrite Heq in H; clear Heq.

(** ** The uid helper *)

Lemma first_uid_of_items (items : pyval) :
  (if negb (py_truthy items) then inr PNone
   else rbind (py_item0 items) (fun item => py_get item "uid" PNone))
  = match items with
    | PList (PDict item :: _) => inr (default PNone (assoc_get "uid" item))
    | PList (_ :: _) => inl (AttributeError "get")
    | PStr (String _ _) => inl (AttributeError "get")
    | PDict (_ :: _) => inl (KeyError "0")
    | PBool true => inl (TypeError "object is not subscriptable")
    | PInt z =>
        if Z.eqb z 0 then inr PNone
        else inl (TypeError "object is not subscriptable")
    | PFloat (S754_zero _) => inr PNone
    | PFloat _ => inl (TypeError "object is not subscriptable")
    | _ => inr PNone
    end.
Proof.
  destruct items as [| [] | z | f | s | l | d]; simpl; try reflexivity.
  - destruct (Z.eqb z 0); reflexivity.
  - destruct f; reflexivity.
  - destruct s; reflexivity.
  - destruct l as [|x l]; [reflexivity|]. destruct x; reflexivity.
  - destruct d; reflexivity.
Qed.

Lemma first_uid_computes `{Host} (json_str key : string) :
  _first_uid_from_query json_str key
  = first_uid_spec (json_loads json_str) key.
Proof.
  unfold _first_uid_from_query, first_uid_try, first_uid_spec.
  destruct (json_loads json_str) as [e|data]; [reflexivity|].
  destruct data as [| b | z | f | s | l | d]; try reflexivity.
  cbn [rbind py_get].
  rewrite first_uid_of_items.
  destruct (assoc_get key d) as [items|]; [|reflexivity].
  destruct items as [| [] | z | f | s | l | d']; simpl; try reflexivity.
  - destruct (Z.eqb z 0); reflexivity.
  - destruct f; reflexivity.
  - destruct s; reflexivity.
  - destruct l as [|x l]; [reflexivity|].
    destruct x as [| | | | | |item]; try reflexivity.
  - destruct d'; reflexivity.
Qed.

(** An answer with no match has no first uid. *)
Lemma zero_matches_no_uid `{Host} (resp block : string) d :
  json_loads resp = inr (PDict d) ->
  assoc_get block d = Some (PList []) \/ assoc_get block d = None ->
  is_None (_first_uid_from_query resp block) = true.
Proof.
  intros Hd Hk. rewrite first_uid_computes, Hd. simpl.
  destruct Hk as [-> | ->]; reflexivity.
Qed.

(** C10. [_first_uid_from_query] is total and computes [first_uid_spec]:
    for every host, input string and key it returns the ['uid'] of the first
    item when the string decodes to an object holding a non-empty list of
    objects under the key, and [None] when the JSON is malformed, the key is
    absent, the list is empty or the first item has no uid.  No exception of
    the decoding or of the accesses escapes. *)
Theorem first_uid_from_query_total `{Host} (json_str key : string) :
  _first_uid_from_query json_str key
  = first_uid_spec (json_loads json_str) key.
Proof. apply first_uid_computes. Qed.

(** ** Quoting of string parameters *)

Lemma quotes_escaped_after_replace (prev : ascii) (s : string) :
  quotes_escaped_after prev (replace_quote s) = true.
Proof.
  revert prev. induction s as [|c r IH]; intros prev; [reflexivity|].
  simpl. destruct (Ascii.eqb c dquote) eqn:Hc; simpl.
  - rewrite IH. reflexivity.
  - rewrite Hc, IH. reflexivity.
Qed.

Lemma replace_quote_escaped (s : string) :
  quotes_escaped (replace_quote s) = true.
Proof. apply quotes_escaped_after_replace. Qed.

(** The text a user typed that has one double quote in it. *)
Definition quoted_term : string := "x" +:+ dq +:+ " y".

(** C6. The two query functions that take text interpolate
    [replace_quote] of it, in which every double quote follows a
    backslash; [delete_comment] interpolates the text as it is, so the
    quote of [quoted_term] reaches the query text bare, and that text is
    what the engine is asked. *)
Theorem delete_comment_interpolates_raw_text :
  (forall text, quotes_escaped (replace_quote text) = true)
  /\ (forall text,
       query_by_text_q text
       = "{ comments(func: anyoftext(text, " +:+ dq +:+ replace_quote text
         +:+ dq +:+ ")) { uid text } }")
  /\ (forall title,
       query_video_posters_reverse_q title
       = "{ video_posters(func: eq(title, " +:+ dq +:+ replace_quote title
         +:+ dq +:+ ")) { uid title ~posts { uid username } } }")
  /\ (forall text,
       delete_comment_q text
       = "{ comments(func: anyoftext(text, " +:+ dq +:+ text +:+ dq
         +:+ ")) { uid } }")
  /\ quotes_escaped quoted_term = false
  /\ (forall E (D : Dgraph E) (h : Host) (s : state E),
       exists t tail,
         evs (delete_comment quoted_term s)
         = EvTxn t
           :: EvQuery t ("{ comments(func: anyoftext(text, " +:+ dq +:+ "x"
                         +:+ dq +:+ " y" +:+ dq +:+ ")) { uid } }")
           :: tail).
Proof.
  split; [exact replace_quote_escaped|].
  split; [reflexivity|]. split; [reflexivity|]. split; [reflexivity|].
  split; [reflexivity|].
  intros E D h s. unfold delete_comment. do 2 eexists. run.
  cbn [app]. reflexivity.
Qed.

(** ** The sanity check of [create_data] *)

Section Preflight.
Context {E : Type} `{Dgraph E} `{Host}.

Lemma missing_files_spec (f : string) :
  In f missing_files <-> In f required_files /\ isfile f = false.
Proof.
  unfold missing_files. rewrite filter_In.
  destruct (isfile f); simpl; intuition congruence.
Qed.

Lemma create_data_aborts (s : state E) :
  missing_files <> [] ->
  create_data s
  = {| res := inr tt; st := s;
       evs := [EvPrint (OutError (FileNotFoundError missing_files));
               EvPrint (OutTraceback (FileNotFoundError missing_files))] |}.
Proof.
  intros Hm. unfold create_data, sanity_check, report_error.
  destruct missing_files as [|f fs] eqn:Hf; [congruence|].
  apply outcome_eq; run; reflexivity.
Qed.

(** C5. When at least one required file is absent, [create_data] does
    nothing but report one [FileNotFoundError] that lists the absent
    required paths: it returns normally, the engine is left as it was, and
    the trace holds the two lines of the report and no client call, hence
    no transaction, no query and no mutation. *)
Theorem create_data_missing_files (s : state E) :
  (exists f, In f required_files /\ isfile f = false) ->
  create_data s
  = {| res := inr tt; st := s;
       evs := [EvPrint (OutError (FileNotFoundError missing_files));
               EvPrint (OutTraceback (FileNotFoundError missing_files))] |}
  /\ (forall f, In f missing_files <-> In f required_files /\ isfile f = false)
  /\ Forall (fun e => is_engine_call e = false) (evs (create_data s)).
Proof.
  intros [f Hf]. apply missing_files_spec in Hf.
  assert (Hne : missing_files <> []) by (intros Hnil; rewrite Hnil in Hf; exact Hf).
  rewrite (create_data_aborts s Hne).
  split; [reflexivity|]. split; [exact missing_files_spec|].
  repeat constructor.
Qed.
End Preflight.

(** ** Pagination defaults *)

Section Pagination.
Context {E : Type} `{Dgraph E} `{Host}.

(** C9. When [int] rejects the first or the offset input, option 8 prints
    that it falls back to the defaults and goes on exactly as a request for
    [first=2, offset=0]: the error of [int] is not propagated, and the
    paged-videos query with [first: 2, offset: 0] is sent to the engine. *)
Theorem pagination_fallback (first offset : string) (s : state E) :
  (exists e, int_of_str first = inl e) \/ (exists e, int_of_str offset = inl e) ->
  main_option_8 first offset s
  = (print (OutStr "Invalid pagination values; using defaults.") ;;
     results <- query_videos_paged 2 0 ;;
     show_page results) s
  /\ exists tail,
       evs (main_option_8 first offset s)
       = EvPrint (OutStr "Invalid pagination values; using defaults.")
         :: EvTxn {| txn_id := next_txn s; txn_read_only := true |}
         :: EvQuery {| txn_id := next_txn s; txn_read_only := true |}
              "{ paged_videos(func: type(Video), first: 2, offset: 0, orderasc: title) { uid title } }"
         :: tail.
Proof.
  intros Hbad.
  assert (Hpage :
    try_except
      (first_i <- lift (int_of_str first) ;;
       offset_i <- lift (int_of_str offset) ;;
       ret (first_i, offset_i))
      (fun _ =>
         print (OutStr "Invalid pagination values; using defaults.") ;;
         ret (2%Z, 0%Z)) s
    = {| res := inr (2%Z, 0%Z); st := s;
         evs := [EvPrint (OutStr "Invalid pagination values; using defaults.")] |}).
  { apply outcome_eq; run.
    - destruct Hbad as [[e He]|[e He]]; rewrite He;
        [|destruct (int_of_str first)]; reflexivity.
    - destruct Hbad as [[e He]|[e He]]; rewrite He;
        [|destruct (int_of_str first)]; run; rewrite ?He; reflexivity.
    - destruct Hbad as [[e He]|[e He]]; rewrite He;
        [|destruct (int_of_str first)]; run; rewrite ?He; reflexivity. }
  assert (Heq : main_option_8 first offset s
    = (print (OutStr "Invalid pagination values; using defaults.") ;;
       results <- query_videos_paged 2 0 ;;
       show_page results) s).
  { unfold main_option_8. fold (@show_page E).
    unfold bind at 1. rewrite Hpage. cbn [res st evs fst snd].
    unfold bind at 3. cbn [print emit res st evs]. reflexivity. }
  split; [exact Heq|].
  rewrite Heq. unfold query_videos_paged, run_query. eexists. run.
  cbn [app]. reflexivity.
Qed.
End Pagination.

(** ** Node batches *)

Lemma node_batch_refs (tmp type : string) (columns : list string)
    (rows : list row) :
  forall i batch,
    node_batch tmp type columns i rows = inr batch ->
    length batch = length rows
    /\ List.map temp_ref batch
       = List.map (fun k => Some (PStr (tmp +:+ pretty k))) (seq i (length rows)).
Proof.
  induction rows as [|r rows IH]; intros i batch Hb; simpl in Hb.
  - inversion Hb. split; reflexivity.
  - unfold node_record in Hb.
    destruct (row_fields columns r) as [e|fs]; simpl in Hb; [discriminate|].
    destruct (node_batch tmp type columns (S i) rows) as [e|xs] eqn:Hxs;
      simpl in Hb; [discriminate|].
    inversion Hb; subst batch. destruct (IH _ _ Hxs) as [Hlen Hrefs].
    simpl. rewrite Hlen, Hrefs. split; reflexivity.
Qed.

Lemma node_batch_blank_names (p type : string) (columns : list string)
    (rows : list row) :
  forall i batch,
    node_batch ("_:" +:+ p) type columns i rows = inr batch ->
    omap blank_name batch
    = List.map (fun k => p +:+ pretty k) (seq i (length rows)).
Proof.
  induction rows as [|r rows IH]; intros i batch Hb; simpl in Hb.
  - inversion Hb. reflexivity.
  - unfold node_record in Hb.
    destruct (row_fields columns r) as [e|fs]; simpl in Hb; [discriminate|].
    destruct (node_batch _ type columns (S i) rows) as [e|xs] eqn:Hxs;
      simpl in Hb; [discriminate|].
    inversion Hb; subst batch. specialize (IH _ _ Hxs).
    simpl. f_equal. exact IH.
Qed.

Lemma NoDup_numbered (p : string) (i n : nat) :
  NoDup (List.map (fun k => p +:+ pretty k) (seq i n)).
Proof.
  apply NoDup_fmap_2.
  - intros a b Hab. apply (inj (String.app p)) in Hab.
    apply (inj pretty) in Hab. exact Hab.
  - apply NoDup_ListNoDup, List.seq_NoDup.
Qed.

Lemma size_uids (p type : string) (columns : list string) (rows : list row)
    (batch : list pyval) (uids : gmap string string) :
  node_batch ("_:" +:+ p) type columns 1 rows = inr batch ->
  one_uid_per_blank_node batch uids ->
  size uids = length rows.
Proof.
  intros Hb Hdom. unfold one_uid_per_blank_node in Hdom.
  rewrite <- size_dom, Hdom, (node_batch_blank_names _ _ _ _ _ _ Hb).
  rewrite size_list_to_set by apply NoDup_numbered.
  rewrite length_map, length_seq. reflexivity.
Qed.

Section NodeLoads.
Context {E : Type} `{Dgraph E} `{Host}.

Lemma load_nodes_success (what p type : string) (columns : list string)
    (path : string) (rows : list row) (tail : option exn)
    (s : state E) (uids : gmap string string) :
  open_csv path = inr (rows, tail) ->
  res (load_nodes what ("_:" +:+ p) type columns path s) = inr uids ->
  let t := {| txn_id := next_txn s; txn_read_only := false |} in
  exists batch,
    node_batch ("_:" +:+ p) type columns 1 rows = inr batch
    /\ tail = None
    /\ evs (load_nodes what ("_:" +:+ p) type columns path s)
       = [EvTxn t; EvPrint (OutLoading what batch);
          EvMutate t (SetObj (PList batch)); EvCommit t; EvDiscard t]
    /\ (dg_mutate (engine s) t (SetObj (PList batch))).1 = inr uids.
Proof.
  intros Hopen Hres t. unfold load_nodes in *.
  run in Hres. run. rewrite Hopen in *. run in Hres. run.
  destruct (node_batch ("_:" +:+ p) type columns 1 rows) as [e|batch] eqn:Hb;
    cbn [rbind] in *; run in Hres; run.
  { repeat (case_in Hres; try discriminate). }
  destruct tail as [e|]; cbn [reader_end] in *; run in Hres; run.
  { repeat (case_in Hres; try discriminate). }
  exists batch. split; [reflexivity|]. split; [reflexivity|].
  destruct (dg_mutate (engine s) _ _) as [[e|u] e1] eqn:Hm;
    cbn [fst snd] in *; run in Hres; run.
  { repeat (case_in Hres; try discriminate). }
  destruct (dg_commit e1 _) as [[e|[]] e2] eqn:Hc;
    cbn [fst snd] in *; run in Hres; run.
  { repeat (case_in Hres; try discriminate). }
  destruct (dg_discard e2 _) as [[e|[]] e3] eqn:Hd;
    cbn [fst snd] in *; run in Hres; run; [discriminate|].
  split; [reflexivity|]. congruence.
Qed.

(** C3. Each of the four node loaders, on a source of N rows and whenever
    it returns: opens one transaction, submits the N records in one
    mutation of that transaction, commits and discards it, and issues no
    other client call; the records carry the temporary references
    [tmp1 .. tmpN], which are pairwise distinct; the mapping returned is the
    engine's answer to that mutation, and holds exactly N identifiers
    whenever the engine gives one identifier to each blank node. *)
Theorem load_nodes_single_mutation (tmp : string)
    (load : string -> M E (gmap string string))
    (path : string) (rows : list row) (tail : option exn)
    (s : state E) (uids : gmap string string) :
  In (tmp, load) node_loaders ->
  open_csv path = inr (rows, tail) ->
  res (load path s) = inr uids ->
  let t := {| txn_id := next_txn s; txn_read_only := false |} in
  exists what batch,
    evs (load path s)
    = [EvTxn t; EvPrint (OutLoading what batch);
       EvMutate t (SetObj (PList batch)); EvCommit t; EvDiscard t]
    /\ length batch = length rows
    /\ List.map temp_ref batch
       = List.map (fun r => Some (PStr r)) (temp_refs tmp (length rows))
    /\ NoDup (temp_refs tmp (length rows))
    /\ (dg_mutate (engine s) t (SetObj (PList batch))).1 = inr uids
    /\ (one_uid_per_blank_node batch uids -> size uids = length rows).
Proof.
  intros Hin Hopen Hres t.
  assert (Hgen : exists what p type columns,
    tmp = "_:" +:+ p /\ load = load_nodes what tmp type columns).
  { unfold node_loaders in Hin. simpl in Hin.
    destruct Hin as [Hl|[Hl|[Hl|[Hl|[]]]]]; inversion Hl; subst;
      [exists "comments", "c" | exists "playlists", "p"
      |exists "users", "u" | exists "videos", "v"];
      do 2 eexists; split; reflexivity. }
  destruct Hgen as (what & p & type & columns & -> & ->).
  destruct (load_nodes_success _ _ _ _ _ _ _ _ _ Hopen Hres)
    as (batch & Hb & _ & Hevs & Hm).
  destruct (node_batch_refs _ _ _ _ _ _ Hb) as [Hlen Hrefs].
  exists what, batch. split; [exact Hevs|]. split; [exact Hlen|].
  split; [|split; [|split]].
  - rewrite Hrefs. unfold temp_refs. rewrite List.map_map. reflexivity.
  - unfold temp_refs. apply NoDup_numbered.
  - exact Hm.
  - intros Hdom. exact (size_uids _ _ _ _ _ _ Hb Hdom).
Qed.
End NodeLoads.

(** ** Relationship rows *)

Section Rows.
Context {E : Type} `{Dgraph E} `{Host}.

Lemma lookup_res compact ep v (s : state E) :
  res (lookup compact ep v s)
  = (dg_query (engine s) {| txn_id := next_txn s; txn_read_only := true |}
       (lookup_query compact ep v)).1.
Proof. unfold lookup. run. reflexivity. Qed.

Lemma lookup_evs compact ep v (s : state E) :
  evs (lookup compact ep v s)
  = [EvTxn {| txn_id := next_txn s; txn_read_only := true |};
     EvQuery {| txn_id := next_txn s; txn_read_only := true |}
       (lookup_query compact ep v)].
Proof. unfold lookup. run. reflexivity. Qed.

Lemma lookup_next_txn compact ep v (s : state E) :
  next_txn (st (lookup compact ep v s)) = S (next_txn s).
Proof. unfold lookup. run. reflexivity. Qed.

Lemma create_edge_evs rel v1 v2 uid1 uid2 (s : state E) :
  let t := {| txn_id := next_txn s; txn_read_only := false |} in
  exists tail,
    evs (create_edge rel v1 v2 uid1 uid2 s)
    = [EvTxn t; EvPrint (OutStr (rel_announce rel v1 v2));
       EvMutate t (SetObj (edge_object rel uid1 uid2))] ++ tail
    /\ (tail = [EvCommit t; EvDiscard t] \/ tail = [EvDiscard t]).
Proof.
  intros t. unfold create_edge. run.
  destruct (dg_mutate (engine s) _ _).1 eqn:Hm; run;
    eexists; (split; [reflexivity|]); [right|left]; reflexivity.
Qed.

Lemma for_each_cons {A} (x : A) (xs : list A) (body : A -> M E unit) s :
  res (body x s) = inr tt ->
  for_each (x :: xs) body s
  = {| res := res (for_each xs body (st (body x s)));
       st := st (for_each xs body (st (body x s)));
       evs := evs (body x s) ++ evs (for_each xs body (st (body x s))) |}.
Proof. intros Hx. cbn [for_each]. unfold bind. rewrite Hx. reflexivity. Qed.

(** What a row does once its two columns are read. *)
Lemma relation_row_columns rel (r : row) c1 c2 (s : state E) :
  row_get r (ep_column (rel_first rel)) = inr c1 ->
  row_get r (ep_column (rel_second rel)) = inr c2 ->
  relation_row rel r s
  = (let v1 := cell_str c1 in
     let v2 := cell_str c2 in
     if rel_eager rel then
       res1 <- lookup (rel_compact rel) (rel_first rel) v1 ;;
       res2 <- lookup (rel_compact rel) (rel_second rel) v2 ;;
       let uid1 := _first_uid_from_query res1 (ep_block (rel_first rel)) in
       if is_None uid1 then warn_not_found (rel_first rel) v1
       else
         let uid2 := _first_uid_from_query res2 (ep_block (rel_second rel)) in
         if is_None uid2 then warn_not_found (rel_second rel) v2
         else create_edge rel v1 v2 uid1 uid2
     else
       res1 <- lookup (rel_compact rel) (rel_first rel) v1 ;;
       let uid1 := _first_uid_from_query res1 (ep_block (rel_first rel)) in
       if is_None uid1 then warn_not_found (rel_first rel) v1
       else
         res2 <- lookup (rel_compact rel) (rel_second rel) v2 ;;
         let uid2 := _first_uid_from_query res2 (ep_block (rel_second rel)) in
         if is_None uid2 then warn_not_found (rel_second rel) v2
         else create_edge rel v1 v2 uid1 uid2) s.
Proof.
  intros H1 H2. unfold relation_row. rewrite H1, H2.
  apply outcome_eq; run; reflexivity.
Qed.

(** The outcome of a row one of whose ends does not resolve. *)
Lemma relation_row_unresolved rel (r : row) c1 c2 (s : state E) :
  row_get r (ep_column (rel_first rel)) = inr c1 ->
  row_get r (ep_column (rel_second rel)) = inr c2 ->
  unresolved rel (cell_str c1) (cell_str c2) s ->
  res (relation_row rel r s) = inr tt
  /\ exists lookups ep v,
       evs (relation_row rel r s)
       = lookups ++ [EvPrint (OutStr (not_found_warning ep v))]
       /\ Forall lookup_or_print lookups
       /\ ((ep = rel_first rel /\ v = cell_str c1)
           \/ (ep = rel_second rel /\ v = cell_str c2)).
Proof.
  intros H1 H2 Hu. rewrite (relation_row_columns _ _ _ _ _ H1 H2).
  unfold unresolved in Hu. destruct Hu as (resp1 & Hr1 & Hu).
  cbv zeta in *.
  destruct (rel_eager rel).
  - destruct Hu as (resp2 & Hr2 & Hn).
    run. rewrite Hr1. run. rewrite Hr2. run.
    destruct (is_None (_first_uid_from_query resp1 _)) eqn:Hn1.
    + split; [reflexivity|].
      exists (evs (lookup (rel_compact rel) (rel_first rel) (cell_str c1) s)
              ++ evs (lookup (rel_compact rel) (rel_second rel) (cell_str c2)
                        (st (lookup (rel_compact rel) (rel_first rel)
                               (cell_str c1) s)))),
        (rel_first rel), (cell_str c1).
      split; [rewrite <- app_assoc; reflexivity|].
      split; [|left; split; reflexivity].
      rewrite !lookup_evs. repeat constructor.
    + destruct Hn as [Hn|Hn]; [discriminate|]. rewrite Hn.
      split; [reflexivity|].
      exists (evs (lookup (rel_compact rel) (rel_first rel) (cell_str c1) s)
              ++ evs (lookup (rel_compact rel) (rel_second rel) (cell_str c2)
                        (st (lookup (rel_compact rel) (rel_first rel)
                               (cell_str c1) s)))),
        (rel_second rel), (cell_str c2).
      split; [rewrite <- app_assoc; reflexivity|].
      split; [|right; split; reflexivity].
      rewrite !lookup_evs. repeat constructor.
  - run. rewrite Hr1. run.
    destruct (is_None (_first_uid_from_query resp1 _)) eqn:Hn1.
    + split; [reflexivity|].
      exists (evs (lookup (rel_compact rel) (rel_first rel) (cell_str c1) s)),
        (rel_first rel), (cell_str c1).
      split; [reflexivity|]. split; [|left; split; reflexivity].
      rewrite !lookup_evs. repeat constructor.
    + destruct Hu as [Hn|(resp2 & Hr2 & Hn)]; [discriminate|].
      run. rewrite Hr2. run. rewrite Hn.
      split; [reflexivity|].
      exists (evs (lookup (rel_compact rel) (rel_first rel) (cell_str c1) s)
              ++ evs (lookup (rel_compact rel) (rel_second rel) (cell_str c2)
                        (st (lookup (rel_compact rel) (rel_first rel)
                               (cell_str c1) s)))),
        (rel_second rel), (cell_str c2).
      split; [rewrite <- app_assoc; reflexivity|].
      split; [|right; split; reflexivity].
      rewrite !lookup_evs. repeat constructor.
Qed.

(** C2. In every relationship load (the nine loaders are [relation_rows]
    of their table) and for every row whose columns are there: when the
    lookups of the row answer and one of the ends has no first uid, the row
    ends normally without raising, its trace consists of read-only lookups
    followed by the warning that names the end that was not found, so no
    mutation and no write transaction is issued for it, and the loop goes
    on with the rows that remain, from the state the row left. *)
Theorem unresolved_row_is_skipped rel (r : row) (rest : list row) c1 c2
    (s : state E) :
  row_get r (ep_column (rel_first rel)) = inr c1 ->
  row_get r (ep_column (rel_second rel)) = inr c2 ->
  unresolved rel (cell_str c1) (cell_str c2) s ->
  let o := relation_row rel r s in
  res o = inr tt
  /\ (exists lookups ep v,
        evs o = lookups ++ [EvPrint (OutStr (not_found_warning ep v))]
        /\ Forall lookup_or_print lookups
        /\ ((ep = rel_first rel /\ v = cell_str c1)
            \/ (ep = rel_second rel /\ v = cell_str c2)))
  /\ Forall (fun e => is_mutate e = false) (evs o)
  /\ relation_rows rel (r :: rest) s
     = {| res := res (relation_rows rel rest (st o));
          st := st (relation_rows rel rest (st o));
          evs := evs o ++ evs (relation_rows rel rest (st o)) |}.
Proof.
  intros H1 H2 Hu o.
  destruct (relation_row_unresolved _ _ _ _ _ H1 H2 Hu)
    as (Hres & lookups & ep & v & Hevs & Hl & Hep).
  split; [exact Hres|]. split; [exists lookups, ep, v; auto|].
  split.
  - subst o. rewrite Hevs. apply Forall_app. split.
    + eapply Forall_impl; [exact Hl|]. intros [] He; simpl in *; tauto.
    + repeat constructor.
  - unfold relation_rows. apply for_each_cons. exact Hres.
Qed.

(** Which filter each end of each loader uses. *)
Lemma lookup_filters rel ep :
  In rel relations ->
  ep = rel_first rel \/ ep = rel_second rel ->
  In (ep_attr ep) ["username"; "title"; "text"]
  /\ (ep_fn ep = AnyOfText
      <-> ep_attr ep = "text" /\ rel_predicate rel <> "replies_to_c_c").
Proof.
  intros Hrel Hep. unfold relations in Hrel. simpl in Hrel.
  repeat (destruct Hrel as [<-|Hrel]; [destruct Hep as [-> | ->]; simpl;
    (split; [tauto|split; [intros ?|intros [? ?]]; try discriminate;
      try (split; [reflexivity|discriminate]); try reflexivity;
      try congruence])|]).
  destruct Hrel.
Qed.

(** C4 (amended). For each of the nine loaders and every row whose two
    ends resolve: each end is looked up by one query in a read-only
    transaction of its own, the first end first; the identifiers used are
    the uid of the first item of each answer; and the row's single mutation
    links these two.  The filter is the full-text [anyoftext] for the
    comment text in [comment_replies_video], [user_comments] and
    [user_likes_comment], and the exact match [eq] everywhere else: for
    usernames, for titles, and for both comment texts of
    [comment_replies_comment]. *)
Theorem lookups_use_first_match rel (r : row) c1 c2 (s : state E)
    (uid1 uid2 : pyval) :
  In rel relations ->
  row_get r (ep_column (rel_first rel)) = inr c1 ->
  row_get r (ep_column (rel_second rel)) = inr c2 ->
  resolved rel (cell_str c1) (cell_str c2) s uid1 uid2 ->
  let t1 := {| txn_id := next_txn s; txn_read_only := true |} in
  let t2 := {| txn_id := S (next_txn s); txn_read_only := true |} in
  let t3 := {| txn_id := S (S (next_txn s)); txn_read_only := false |} in
  (exists tail,
     evs (relation_row rel r s)
     = [EvTxn t1;
        EvQuery t1 (lookup_query (rel_compact rel) (rel_first rel) (cell_str c1));
        EvTxn t2;
        EvQuery t2 (lookup_query (rel_compact rel) (rel_second rel) (cell_str c2));
        EvTxn t3;
        EvPrint (OutStr (rel_announce rel (cell_str c1) (cell_str c2)));
        EvMutate t3 (SetObj (edge_object rel uid1 uid2))] ++ tail
     /\ (tail = [EvCommit t3; EvDiscard t3] \/ tail = [EvDiscard t3]))
  /\ (exists resp1 resp2,
        (dg_query (engine s) t1
           (lookup_query (rel_compact rel) (rel_first rel) (cell_str c1))).1
        = inr resp1
        /\ uid1 = first_uid_spec (json_loads resp1) (ep_block (rel_first rel))
        /\ uid2 = first_uid_spec (json_loads resp2) (ep_block (rel_second rel)))
  /\ (forall ep,
        ep = rel_first rel \/ ep = rel_second rel ->
        In (ep_attr ep) ["username"; "title"; "text"]
        /\ (ep_fn ep = AnyOfText
            <-> ep_attr ep = "text" /\ rel_predicate rel <> "replies_to_c_c")).
Proof.
  intros Hrel H1 H2 Hres t1 t2 t3.
  destruct Hres as (resp1 & resp2 & Hr1 & Hr2 & Hu1 & Hu2 & Hn1 & Hn2).
  split; [|split].
  - rewrite (relation_row_columns _ _ _ _ _ H1 H2). cbv zeta.
    destruct (create_edge_evs rel (cell_str c1) (cell_str c2) uid1 uid2
                (st (lookup (rel_compact rel) (rel_second rel) (cell_str c2)
                       (st (lookup (rel_compact rel) (rel_first rel)
                              (cell_str c1) s)))))
      as (tail & Hevs & Htail).
    rewrite !lookup_next_txn in Hevs, Htail. fold t3 in Hevs, Htail.
    exists tail. split; [|exact Htail].
    destruct (rel_eager rel); run; rewrite Hr1; run; rewrite <- ?Hu1, ?Hn1;
      run; rewrite Hr2; run; rewrite <- ?Hu1, <- ?Hu2, ?Hn1, ?Hn2;
      rewrite !lookup_evs, ?lookup_next_txn, Hevs; reflexivity.
  - exists resp1, resp2. rewrite lookup_res in Hr1.
    split; [exact Hr1|]. rewrite <- !first_uid_computes. split; assumption.
  - intros ep Hep. apply lookup_filters; assumption.
Qed.
End Rows.

(** ** Delete by term *)

Lemma uids_of_objects (us : list pyval) :
  uids_of (List.map (fun u => PDict [("uid", u)]) us) = inr us.
Proof.
  induction us as [|u us IH]; [reflexivity|].
  simpl. rewrite IH. reflexivity.
Qed.

Section Delete.
Context {E : Type} `{Dgraph E} `{Host}.

Lemma delete_comment_returns (comment_text : string) (s : state E) (v : pyval) :
  res (delete_comment comment_text s) = inr v ->
  let t1 := {| txn_id := next_txn s; txn_read_only := true |} in
  let t2 := {| txn_id := S (next_txn s); txn_read_only := false |} in
  let q := delete_comment_q comment_text in
  exists resp data comments uids,
    (dg_query (engine s) t1 q).1 = inr resp
    /\ json_loads resp = inr data
    /\ py_get data "comments" (PList []) = inr comments
    /\ rbind (py_iter comments) uids_of = inr uids
    /\ ((uids = [] /\ v = PInt 0
         /\ evs (delete_comment comment_text s)
            = [EvTxn t1; EvQuery t1 q; EvDiscard t1;
               EvPrint (OutStr ("No comments found matching: '"
                                +:+ comment_text +:+ "'"))])
        \/ (uids <> [] /\ v = PNone
            /\ evs (delete_comment comment_text s)
               = [EvTxn t1; EvQuery t1 q; EvDiscard t1;
                  EvTxn t2;
                  EvPrint (OutStr ("Deleting " +:+ pretty (length uids)
                                   +:+ " comment(s) matching: '"
                                   +:+ comment_text +:+ "'"));
                  EvMutate t2 (DelObj (PList
                    (List.map (fun uid => PDict [("uid", uid)]) uids)));
                  EvCommit t2; EvDiscard t2])).
Proof.
  intros Hres t1 t2 q. unfold delete_comment in *. cbv zeta in *.
  fold t1 in Hres |- *. fold q in Hres |- *.
  run in Hres. run.
  destruct (dg_query (engine s) _ _) as [[e|resp] e1] eqn:Hq;
    cbn [fst snd] in *; run in Hres; run.
  { repeat (case_in Hres; try discriminate). }
  destruct (json_loads resp) as [e|data] eqn:Hd; run in Hres; run.
  { repeat (case_in Hres; try discriminate). }
  destruct (py_get data "comments" (PList [])) as [e|comments] eqn:Hc;
    run in Hres; run.
  { repeat (case_in Hres; try discriminate). }
  destruct (rbind (py_iter comments) uids_of) as [e|uids] eqn:Hu;
    run in Hres; run.
  { repeat (case_in Hres; try discriminate). }
  exists resp, data, comments, uids.
  do 4 (split; [first [reflexivity|assumption]|]).
  destruct (dg_discard e1 _) as [[e|[]] e2] eqn:Hd1;
    cbn [fst snd] in *; run in Hres; run; [discriminate|].
  destruct uids as [|u uids]; run in Hres; run.
  - left. split; [reflexivity|]. split; [congruence|reflexivity].
  - right. split; [discriminate|].
    destruct (dg_mutate e2 _ _) as [[e|m] e3] eqn:Hm;
      cbn [fst snd] in *; run in Hres; run.
    { repeat (case_in Hres; try discriminate). }
    destruct (dg_commit e3 _) as [[e|[]] e4] eqn:Hcm;
      cbn [fst snd] in *; run in Hres; run.
    { repeat (case_in Hres; try discriminate). }
    destruct (dg_discard e4 _) as [[e|[]] e5] eqn:Hd2;
      cbn [fst snd] in *; run in Hres; run; [discriminate|].
    split; [congruence|]. rewrite length_map. reflexivity.
Qed.

(** C7 (amended). Whenever [delete_comment] returns: it has queried the
    comments that match the term in a read-only transaction, and either
    none carried a uid, it printed that nothing was found and returned
    [0]; or it deleted every uid of the answer in one mutation of one
    write transaction, printed their count in the progress line, and
    returned [None].  The uids of an answer that lists objects with a uid
    are exactly the uids listed. *)
Theorem delete_comment_outcome (comment_text : string) (s : state E) (v : pyval) :
  res (delete_comment comment_text s) = inr v ->
  let t1 := {| txn_id := next_txn s; txn_read_only := true |} in
  let t2 := {| txn_id := S (next_txn s); txn_read_only := false |} in
  let q := delete_comment_q comment_text in
  (exists resp data comments uids,
    (dg_query (engine s) t1 q).1 = inr resp
    /\ json_loads resp = inr data
    /\ py_get data "comments" (PList []) = inr comments
    /\ rbind (py_iter comments) uids_of = inr uids
    /\ ((uids = [] /\ v = PInt 0
         /\ evs (delete_comment comment_text s)
            = [EvTxn t1; EvQuery t1 q; EvDiscard t1;
               EvPrint (OutStr ("No comments found matching: '"
                                +:+ comment_text +:+ "'"))])
        \/ (uids <> [] /\ v = PNone
            /\ evs (delete_comment comment_text s)
               = [EvTxn t1; EvQuery t1 q; EvDiscard t1;
                  EvTxn t2;
                  EvPrint (OutStr ("Deleting " +:+ pretty (length uids)
                                   +:+ " comment(s) matching: '"
                                   +:+ comment_text +:+ "'"));
                  EvMutate t2 (DelObj (PList
                    (List.map (fun uid => PDict [("uid", uid)]) uids)));
                  EvCommit t2; EvDiscard t2])))
  /\ (forall us : list pyval,
       rbind (py_iter (PList (List.map (fun u => PDict [("uid", u)]) us)))
             uids_of = inr us).
Proof.
  intros Hres. split.
  - apply delete_comment_returns. exact Hres.
  - intros us. simpl. apply uids_of_objects.
Qed.
End Delete.

(** ** The orchestrator *)

Section Orchestrator.
Context {E : Type} `{Dgraph E} `{Host}.

Lemma bind_congr {A B} (m : M E A) (k k' : A -> M E B) s :
  (forall a s', k a s' = k' a s') -> bind m k s = bind m k' s.
Proof. intros Hk. unfold bind. destruct (res (m s)); [reflexivity|]. rewrite Hk. reflexivity. Qed.

Lemma bind_step {A B} (m : M E A) (k : M E B) s :
  bind (step m) (fun _ => k) s = bind m (fun _ => k) s.
Proof.
  unfold step, bind. destruct (res (m s)); simpl; [reflexivity|].
  rewrite app_nil_r. reflexivity.
Qed.

Lemma bind_ret_tt (m : M E unit) s : bind m (fun _ => ret tt) s = m s.
Proof.
  apply outcome_eq; run.
  - destruct (res (m s)) as [e|[]]; reflexivity.
  - destruct (res (m s)); reflexivity.
  - destruct (res (m s)); simpl; apply app_nil_r.
Qed.

Lemma load_all_steps (s : state E) : load_all s = run_steps load_steps s.
Proof.
  unfold load_all, load_steps. cbn [run_steps].
  do 4 (rewrite bind_step; apply bind_congr; intros _ ?).
  do 8 (apply bind_congr; intros _ ?).
  symmetry. apply bind_ret_tt.
Qed.

Lemma create_data_returns (s : state E) : res (create_data s) = inr tt.
Proof.
  unfold create_data, report_error. run.
  destruct (res (sanity_check s)) as [e|[]]; run; [reflexivity|].
  destruct (res (load_all _)) as [e|[]]; reflexivity.
Qed.

Lemma create_data_failure (s : state E) pre failing post e :
  load_steps = pre ++ failing :: post ->
  missing_files = [] ->
  res (run_steps pre s) = inr tt ->
  res (failing (st (run_steps pre s))) = inl e ->
  create_data s
  = {| res := inr tt;
       st := st (failing (st (run_steps pre s)));
       evs := evs (run_steps pre s)
              ++ evs (failing (st (run_steps pre s)))
              ++ [EvPrint (OutError e); EvPrint (OutTraceback e)] |}.
Proof.
  intros Hsteps Hmiss Hpre Hfail.
  assert (Hall : load_all s
    = {| res := inl e; st := st (failing (st (run_steps pre s)));
         evs := evs (run_steps pre s) ++ evs (failing (st (run_steps pre s))) |}).
  { rewrite load_all_steps, Hsteps, (run_steps_app _ _ _ Hpre).
    cbn [run_steps]. rewrite (bind_raise _ _ _ _ Hfail). reflexivity. }
  unfold create_data, sanity_check, report_error. rewrite Hmiss.
  apply outcome_eq; run; rewrite Hall; run; try reflexivity.
  cbn [app]. rewrite <- app_assoc. reflexivity.
Qed.

(** C1 (amended). [create_data] never re-raises: whatever a load step
    raises is caught and printed, and the call returns normally.  But the
    thirteen steps share one [try]: when the sanity check passes and a step
    raises, the run ends there.  Its trace is the trace of the steps before,
    the trace of the failing step and the two lines of the report; no step
    after the failing one is executed. *)
Theorem create_data_stops_at_first_failure (s : state E) :
  res (create_data s) = inr tt
  /\ forall pre failing post e,
       load_steps = pre ++ failing :: post ->
       missing_files = [] ->
       res (run_steps pre s) = inr tt ->
       res (failing (st (run_steps pre s))) = inl e ->
       create_data s
       = {| res := inr tt;
            st := st (failing (st (run_steps pre s)));
            evs := evs (run_steps pre s)
                   ++ evs (failing (st (run_steps pre s)))
                   ++ [EvPrint (OutError e); EvPrint (OutTraceback e)] |}.
Proof.
  split; [apply create_data_returns|].
  intros pre failing post e. apply create_data_failure.
Qed.
End Orchestrator.

(** ** Release of transactions *)

#[export] Instance all_released_additive : Additive all_released.
Proof.
  split.
  - intros t [].
  - intros a b Ha Hb t Ht. apply in_app_iff in Ht. apply in_app_iff.
    destruct Ht as [Ht|Ht]; [left; apply Ha|right; apply Hb]; exact Ht.
Qed.

#[export] Instance writes_released_additive : Additive writes_released.
Proof.
  split.
  - intros t [].
  - intros a b Ha Hb t Ht Hw. apply in_app_iff in Ht. apply in_app_iff.
    destruct Ht as [Ht|Ht]; [left; apply Ha|right; apply Hb]; assumption.
Qed.

#[export] Instance Forall_additive (Q : event -> Prop) : Additive (Forall Q).
Proof.
  split.
  - constructor.
  - intros a b Ha Hb. apply Forall_app. split; assumption.
Qed.

Section Always.
Context {E : Type} `{Dgraph E} (P : list event -> Prop) `{!Additive P}.

Lemma always_ret {A} (a : A) : always P (ret (E := E) a).
Proof. intros s. apply additive_nil. Qed.

Lemma always_raise {A} (e : exn) : always P (raise (E := E) (A := A) e).
Proof. intros s. apply additive_nil. Qed.

Lemma always_lift {A} (r : result A) : always P (lift (E := E) r).
Proof. intros s. rewrite lift_evs. apply additive_nil. Qed.

Lemma always_bind {A B} (m : M E A) (f : A -> M E B) :
  always P m -> (forall a, always P (f a)) -> always P (bind m f).
Proof.
  intros Hm Hf s. rewrite bind_evs. apply additive_app; [apply Hm|].
  destruct (res (m s)); [apply additive_nil|apply Hf].
Qed.

Lemma always_try_finally {A} (body : M E A) (fin : M E unit) :
  always P body -> always P fin -> always P (try_finally body fin).
Proof.
  intros Hb Hf s. rewrite try_finally_evs.
  apply additive_app; [apply Hb|apply Hf].
Qed.

Lemma always_try_except {A} (body : M E A) (handler : exn -> M E A) :
  always P body -> (forall e, always P (handler e)) ->
  always P (try_except body handler).
Proof.
  intros Hb Hh s. rewrite try_except_evs. apply additive_app; [apply Hb|].
  destruct (res (body s)); [apply Hh|apply additive_nil].
Qed.

Lemma always_for_each {A} (xs : list A) (body : A -> M E unit) :
  (forall x, always P (body x)) -> always P (for_each xs body).
Proof.
  intros Hb. induction xs as [|x xs IH]; cbn [for_each].
  - apply always_ret.
  - apply always_bind; [apply Hb|intros _; exact IH].
Qed.

Lemma always_if {A} (b : bool) (m m' : M E A) :
  always P m -> always P m' -> always P (if b then m else m').
Proof. destruct b; auto. Qed.
End Always.

Section Release.
Context {E : Type} `{Dgraph E} `{Host}.

(** Events of the calls on an open transaction. *)
Lemma query_opens_nothing t q :
  always (E := E) (Forall opens_nothing) (txn_query t q).
Proof. intros s. repeat constructor. Qed.

Lemma mutate_opens_nothing t m :
  always (E := E) (Forall opens_nothing) (txn_mutate t m).
Proof. intros s. repeat constructor. Qed.

Lemma commit_opens_nothing t :
  always (E := E) (Forall opens_nothing) (txn_commit t).
Proof. intros s. repeat constructor. Qed.

Lemma print_opens_nothing o :
  always (E := E) (Forall opens_nothing) (print o).
Proof. intros s. repeat constructor. Qed.

Lemma quiet_released (tr : list event) :
  Forall opens_nothing tr -> all_released tr.
Proof.
  intros Hq t Ht. rewrite Forall_forall in Hq.
  apply list_elem_of_In, Hq in Ht. discriminate Ht.
Qed.

(** The scoped use of a transaction: opened, used by a body that opens
    nothing, discarded by the [finally]. *)
Lemma scoped_txn {A} (ro : bool) (body : txn -> M E A) :
  (forall t, always (Forall opens_nothing) (body t)) ->
  always all_released
    (t <- client_txn ro ;; try_finally (body t) (txn_discard t)).
Proof.
  intros Hb s t Ht. run. run in Ht. cbn [app] in *.
  destruct Ht as [Ht|Ht].
  - inversion Ht; subst t. right. apply in_app_iff. right. left. reflexivity.
  - exfalso. apply in_app_iff in Ht. destruct Ht as [Ht|[Ht|[]]]; [|discriminate].
    specialize (Hb {| txn_id := next_txn s; txn_read_only := ro |}
                   {| engine := engine s; next_txn := S (next_txn s) |}).
    rewrite Forall_forall in Hb. apply list_elem_of_In, Hb in Ht. discriminate Ht.
Qed.

Lemma scoped_txn_then {A B} (ro : bool) (body : txn -> M E A)
    (k : txn -> A -> M E B) :
  (forall t, always (Forall opens_nothing) (body t)) ->
  (forall t a, always all_released (k t a)) ->
  always all_released
    (t <- client_txn ro ;; a <- try_finally (body t) (txn_discard t) ;; k t a).
Proof.
  intros Hb Hk s.
  pose proof (scoped_txn ro body Hb s) as Hs. run in Hs. run.
  rewrite app_assoc. apply additive_app; [exact Hs|].
  match goal with |- context [match ?x with _ => _ end] => destruct x end;
    [apply additive_nil|apply Hk].
Qed.
End Release.

(** Solves the goals that a computation made of pure steps, prints and
    calls on an open transaction opens no transaction. *)
Ltac quiet :=
  repeat first
    [ apply query_opens_nothing | apply mutate_opens_nothing
    | apply commit_opens_nothing | apply print_opens_nothing
    | apply always_lift; [typeclasses eauto]
    | apply always_ret; [typeclasses eauto]
    | apply always_raise; [typeclasses eauto]
    | apply always_if
    | apply always_bind; [typeclasses eauto| |intros ?]
    | progress intros ].

Section ReleaseOfOperations.
Context {E : Type} `{Dgraph E} `{Host}.

Lemma load_nodes_released what tmp type columns path :
  always (E := E) all_released (load_nodes what tmp type columns path).
Proof.
  unfold load_nodes. apply scoped_txn_then.
  - quiet.
  - intros t a. apply always_ret. typeclasses eauto.
Qed.

Lemma run_query_released q key : always (E := E) all_released (run_query q key).
Proof. unfold run_query. apply scoped_txn. quiet. Qed.

Lemma query_video_count_released : always (E := E) all_released query_video_count.
Proof. unfold query_video_count. apply scoped_txn. quiet. Qed.

Lemma delete_comment_released text :
  always (E := E) all_released (delete_comment text).
Proof.
  unfold delete_comment. cbv zeta. apply scoped_txn_then.
  - quiet.
  - intros _ [|u uids].
    + intros s. apply quiet_released. revert s. quiet.
    + apply scoped_txn_then.
      * quiet.
      * intros t a. apply always_ret. typeclasses eauto.
Qed.

Lemma create_edge_released rel v1 v2 uid1 uid2 :
  always (E := E) all_released (create_edge rel v1 v2 uid1 uid2).
Proof. unfold create_edge. apply scoped_txn. quiet. Qed.

Lemma all_released_writes (tr : list event) :
  all_released tr -> writes_released tr.
Proof. intros Hr t Ht _. apply Hr. exact Ht. Qed.

Lemma lookup_writes_released compact ep v :
  always (E := E) writes_released (lookup compact ep v).
Proof.
  intros s t Ht Hw. rewrite lookup_evs in Ht.
  destruct Ht as [Ht|[Ht|[]]]; [|discriminate].
  inversion Ht; subst t. discriminate Hw.
Qed.

Lemma lookup_closes_nothing compact ep v :
  always (E := E) (Forall closes_no_lookup) (lookup compact ep v).
Proof. intros s. rewrite lookup_evs. repeat constructor. Qed.

Lemma create_edge_closes_no_lookup rel v1 v2 uid1 uid2 :
  always (E := E) (Forall closes_no_lookup) (create_edge rel v1 v2 uid1 uid2).
Proof.
  intros s. destruct (create_edge_evs rel v1 v2 uid1 uid2 s) as (tail & -> & Ht).
  destruct Ht as [-> | ->]; repeat constructor.
Qed.

Lemma warn_closes_nothing (P : list event -> Prop) ep v :
  P [EvPrint (OutStr (not_found_warning ep v))] ->
  always (E := E) P (warn_not_found ep v).
Proof. intros HP s. exact HP. Qed.

Lemma relation_row_writes_released rel r :
  always (E := E) writes_released (relation_row rel r).
Proof.
  unfold relation_row.
  repeat first
    [ apply lookup_writes_released
    | apply warn_closes_nothing; intros t [Ht|[]]; discriminate Ht
    | intros s; apply all_released_writes; apply create_edge_released
    | apply always_lift; [typeclasses eauto]
    | apply always_if
    | apply always_bind; [typeclasses eauto| |intros ?] ].
Qed.

Lemma relation_row_closes_no_lookup rel r :
  always (E := E) (Forall closes_no_lookup) (relation_row rel r).
Proof.
  unfold relation_row.
  repeat first
    [ apply lookup_closes_nothing
    | apply warn_closes_nothing; repeat constructor
    | apply create_edge_closes_no_lookup
    | apply always_lift; [typeclasses eauto]
    | apply always_if
    | apply always_bind; [typeclasses eauto| |intros ?] ].
Qed.

Lemma load_relationship_always (P : list event -> Prop) `{!Additive P} rel path :
  (forall r, always (E := E) P (relation_row rel r)) ->
  always (E := E) P (load_relationship rel path).
Proof.
  intros Hrow. unfold load_relationship, relation_rows.
  apply always_bind; [assumption|apply always_lift; assumption|intros file].
  apply always_bind; [assumption| |intros _; apply always_lift; assumption].
  apply always_for_each; assumption.
Qed.

Lemma closes_no_lookup_left_open (tr : list event) :
  Forall closes_no_lookup tr -> lookups_left_open tr.
Proof.
  intros Hc t _ Hro [Hr|Hr]; rewrite Forall_forall in Hc;
    apply list_elem_of_In, Hc in Hr; simpl in Hr; congruence.
Qed.

Lemma always_writes_released {A} (m : M E A) :
  always all_released m -> always writes_released m.
Proof. intros Hm s. apply all_released_writes, Hm. Qed.

(** A computation that starts by opening a transaction: what follows may
    rely on the mode it was opened in. *)
Lemma always_client_txn (P : list event -> Prop) `{!Additive P} {B}
    (ro : bool) (k : txn -> M E B) :
  (forall t, txn_read_only t = ro -> P [EvTxn t] /\ always P (k t)) ->
  always P (bind (client_txn ro) k).
Proof.
  intros Hk s. run.
  destruct (Hk {| txn_id := next_txn s; txn_read_only := ro |} eq_refl)
    as [Ht Hrest].
  apply additive_app; [exact Ht|apply Hrest].
Qed.

Lemma load_nodes_closes_no_lookup what tmp type columns path :
  always (E := E) (Forall closes_no_lookup)
    (load_nodes what tmp type columns path).
Proof.
  unfold load_nodes. apply always_client_txn; [typeclasses eauto|].
  intros t Ht. split; [repeat constructor|].
  apply always_bind; [typeclasses eauto| |intros resp; apply always_ret; typeclasses eauto].
  apply always_try_finally; [typeclasses eauto| |].
  - repeat first
      [ apply always_lift; [typeclasses eauto]
      | apply always_ret; [typeclasses eauto]
      | apply always_bind; [typeclasses eauto| |intros ?]
      | intros s; repeat constructor; exact Ht ].
  - intros s. repeat constructor. exact Ht.
Qed.

Lemma load_all_always (P : list event -> Prop) `{!Additive P} :
  (forall what tmp type columns path,
     always (E := E) P (load_nodes what tmp type columns path)) ->
  (forall rel path, always (E := E) P (load_relationship rel path)) ->
  (forall o, always (E := E) P (print o)) ->
  always (E := E) P create_data.
Proof.
  intros Hn Hr Hp. unfold create_data.
  apply always_try_except; [assumption| |].
  - apply always_bind; [assumption| |intros _].
    + unfold sanity_check. destruct missing_files;
        [apply always_ret|apply always_raise]; assumption.
    + unfold load_all.
      do 4 (apply always_bind; [assumption|apply Hn|intros _]).
      do 8 (apply always_bind; [assumption|apply Hr|intros _]).
      apply Hr.
  - intros e. unfold report_error.
    apply always_bind; [assumption|apply Hp|intros _; apply Hp].
Qed.

(** C8 (amended). On every exit path, with whatever the engine answers
    or raises: the transaction of a node load, of each of the seven
    queries and the transactions of [delete_comment] are discarded; so is
    every write transaction of a relationship load and of [create_data] as
    a whole.  The read-only transactions that a relationship load opens
    for its lookups are neither committed nor discarded. *)
Theorem transactions_released (s : state E) :
  (forall path,
     all_released (evs (load_comments path s))
     /\ all_released (evs (load_playlists path s))
     /\ all_released (evs (load_users path s))
     /\ all_released (evs (load_videos path s)))
  /\ (forall text, all_released (evs (query_by_text text s)))
  /\ (forall min_duration,
       all_released (evs (query_by_numeric_duration min_duration s)))
  /\ all_released (evs (query_users_with_posts s))
  /\ (forall title, all_released (evs (query_video_posters_reverse title s)))
  /\ (forall desc, all_released (evs (query_videos_sorted desc s)))
  /\ all_released (evs (query_video_count s))
  /\ (forall first offset, all_released (evs (query_videos_paged first offset s)))
  /\ (forall text, all_released (evs (delete_comment text s)))
  /\ (forall rel path,
       writes_released (evs (load_relationship rel path s))
       /\ lookups_left_open (evs (load_relationship rel path s)))
  /\ writes_released (evs (create_data s))
  /\ lookups_left_open (evs (create_data s)).
Proof.
  split; [intros path; repeat split; apply load_nodes_released|].
  split; [intros text; apply run_query_released|].
  split; [intros d; apply run_query_released|].
  split; [apply run_query_released|].
  split; [intros title; apply run_query_released|].
  split; [intros desc; apply run_query_released|].
  split; [apply query_video_count_released|].
  split; [intros first offset; apply run_query_released|].
  split; [intros text; apply delete_comment_released|].
  assert (Hw : forall rel path,
    always (E := E) writes_released (load_relationship rel path)).
  { intros rel path. apply (load_relationship_always writes_released).
    apply relation_row_writes_released. }
  assert (Hc : forall rel path,
    always (E := E) (Forall closes_no_lookup) (load_relationship rel path)).
  { intros rel path. apply (load_relationship_always (Forall closes_no_lookup)).
    apply relation_row_closes_no_lookup. }
  split; [|split].
  - intros rel path. split; [apply Hw|].
    apply closes_no_lookup_left_open, Hc.
  - apply (load_all_always writes_released); [|exact Hw|].
    + intros. apply always_writes_released, load_nodes_released.
    + intros o s' t [Ht|[]]. discriminate Ht.
  - apply closes_no_lookup_left_open.
    apply (load_all_always (Forall closes_no_lookup)); [|exact Hc|].
    + intros. apply load_nodes_closes_no_lookup.
    + intros o s'. repeat constructor.
Qed.
End ReleaseOfOperations.

(** ** The program on the example inputs *)

Section Runs.
Import Fixture Examples.

#[local] Existing Instance dgraph.

(** C5 on a host with no data file at all: the thirteen paths are
    reported and nothing else happens. *)
Lemma create_data_missing_files_witness :
  @create_data store dgraph bare_host (start [])
  = {| res := inr tt; st := start [];
       evs := [EvPrint (OutError (FileNotFoundError (@required_files bare_host)));
               EvPrint (OutTraceback (FileNotFoundError (@required_files bare_host)))] |}.
Proof.
  refine (proj1 (@create_data_missing_files store dgraph bare_host (start []) _)).
  exists (nodes_csv "comments.csv"). split; [left|]; reflexivity.
Defined.

(** C9 on the inputs [abc] and [1]: [int] rejects the first, and the
    query is sent with the defaults. *)
Lemma pagination_fallback_witness :
  exists tail,
    evs (@main_option_8 store dgraph bare_host "abc" "1" (start []))
    = EvPrint (OutStr "Invalid pagination values; using defaults.")
      :: EvTxn (lookup_txn 0)
      :: EvQuery (lookup_txn 0)
           "{ paged_videos(func: type(Video), first: 2, offset: 0, orderasc: title) { uid title } }"
      :: tail.
Proof.
  refine (proj2 (@pagination_fallback store dgraph bare_host "abc" "1" (start []) _)).
  left. eexists. reflexivity.
Defined.

(** C3 on a comments file of three rows: the load returns the three
    identifiers the engine generated. *)
Lemma load_nodes_single_mutation_witness :
  res (@load_comments store dgraph comments_host (nodes_csv "comments.csv") (start []))
  = inr the_uids
  /\ size the_uids = 3.
Proof.
  assert (Hres : res (@load_comments store dgraph comments_host
                        (nodes_csv "comments.csv") (start []))
                 = inr the_uids) by (vm_compute; reflexivity).
  split; [exact Hres|].
  destruct (@load_nodes_single_mutation store dgraph comments_host "_:c"
              load_comments (nodes_csv "comments.csv") comment_rows None
              (start []) the_uids (or_introl eq_refl) eq_refl Hres)
    as (what & batch & Hevs & _ & _ & _ & _ & Hsize).
  apply Hsize.
  evaluate (evs (@load_comments store dgraph comments_host
                   (nodes_csv "comments.csv") (start []))) Hevs.
  injection Hevs as _ <-.
  vm_compute. reflexivity.
Defined.

(** C2 on a row of [user_comments.csv] whose user has no match: one
    lookup, the warning, no mutation. *)
Lemma unresolved_row_is_skipped_witness :
  let o := @relation_row store dgraph bare_host user_comments orphan_row
             (start orphan_answers) in
  res o = inr tt
  /\ evs o
     = [EvTxn (lookup_txn 0);
        EvQuery (lookup_txn 0)
          ("{ user(func: eq(username, " +:+ quoted "zoe" +:+ ")) { uid } }");
        EvPrint (OutStr "Warning: user not found for username: 'zoe', skipping relation")]
  /\ Forall (fun e => is_mutate e = false) (evs o).
Proof.
  destruct (@unresolved_row_is_skipped store dgraph bare_host user_comments
              orphan_row [] (Some "zoe") (Some "goodbye") (start orphan_answers))
    as (Hres & _ & Hmut & _).
  - vm_compute. reflexivity.
  - vm_compute. reflexivity.
  - exists (uid_answer "user" []). split; [vm_compute; reflexivity|].
    left. apply (zero_matches_no_uid _ _ [("user", PList [])]).
    + vm_compute. reflexivity.
    + left. reflexivity.
  - split; [exact Hres|]. split; [vm_compute; reflexivity|exact Hmut].
Defined.

(** C1 (amended) on the host whose playlists file is broken: the trace is
    the comments load, the failed playlists load and the report. *)
Lemma create_data_stops_at_first_failure_witness :
  evs (@create_data store dgraph broken_host (start []))
  = evs (step (@load_comments store dgraph broken_host (@COMMENTS_PATH broken_host))
           (start []))
    ++ [EvTxn (write_txn 1); EvDiscard (write_txn 1)]
    ++ [EvPrint (OutError (KeyError "visibility"));
        EvPrint (OutTraceback (KeyError "visibility"))].
Proof.
  destruct (@create_data_stops_at_first_failure store dgraph broken_host (start []))
    as [_ Hstop].
  rewrite (Hstop
    [step (@load_comments store dgraph broken_host (@COMMENTS_PATH broken_host))]
    (step (@load_playlists store dgraph broken_host (@PLAYLISTS_PATH broken_host)))
    (List.tl (List.tl (@load_steps store dgraph broken_host)))
    (KeyError "visibility")).
  - vm_compute. reflexivity.
  - reflexivity.
  - vm_compute. reflexivity.
  - vm_compute. reflexivity.
  - vm_compute. reflexivity.
Defined.

(** C4 (amended) on a reply row: two exact-match lookups, and of the two
    matches of the second lookup the first, [0x1], is the one linked. *)
Lemma lookups_use_first_match_witness :
  exists tail,
    evs (@relation_row store dgraph bare_host comment_replies_comment reply_row
           (start reply_answers))
    = [EvTxn (lookup_txn 0);
       EvQuery (lookup_txn 0)
         ("{comment(func: eq(text, " +:+ quoted "hello there" +:+ ")){uid}}");
       EvTxn (lookup_txn 1);
       EvQuery (lookup_txn 1)
         ("{comment(func: eq(text, " +:+ quoted "hello world" +:+ ")){uid}}");
       EvTxn (write_txn 2);
       EvPrint (OutStr "Generating relationship comment replies to comment...");
       EvMutate (write_txn 2)
         (SetObj (PDict [("uid", PStr "0x1");
                         ("replies_to_c_c", PList [PDict [("uid", PStr "0x2")]])]))]
      ++ tail.
Proof.
  destruct (@lookups_use_first_match store dgraph bare_host
              comment_replies_comment reply_row
              (Some "hello there") (Some "hello world")
              (start reply_answers) (PStr "0x2") (PStr "0x1"))
    as ((tail & Hevs & _) & _).
  - left. reflexivity.
  - vm_compute. reflexivity.
  - vm_compute. reflexivity.
  - exists (uid_answer "comment" ["0x2"]), (uid_answer "comment" ["0x1"; "0x7"]).
    repeat split; vm_compute; reflexivity.
  - exists tail. exact Hevs.
Defined.

(** C7 (amended) on an engine with two comments that match [hello]. *)
Lemma delete_comment_outcome_witness :
  res (@delete_comment store dgraph bare_host "hello" (start hello_answers)) = inr PNone
  /\ exists uids,
       uids <> []
       /\ In (EvMutate (write_txn 1)
                (DelObj (PList (List.map (fun uid => PDict [("uid", uid)]) uids))))
             (evs (@delete_comment store dgraph bare_host "hello" (start hello_answers))).
Proof.
  assert (Hres : res (@delete_comment store dgraph bare_host "hello"
                        (start hello_answers)) = inr PNone)
    by (vm_compute; reflexivity).
  split; [exact Hres|].
  destruct (@delete_comment_outcome store dgraph bare_host "hello"
              (start hello_answers) PNone Hres)
    as ((resp & data & comments & uids & _ & _ & _ & _ & Hcase) & _).
  destruct Hcase as [(_ & Hv & _)|(Hne & _ & Hevs)]; [discriminate Hv|].
  exists uids. split; [exact Hne|]. rewrite Hevs. simpl. tauto.
Defined.
End Runs.

(** ** Where the code departs from its specification *)

Section Departures.
Import Fixture Examples.

#[local] Existing Instance dgraph.

(** Whatever the state, the video load of the example host prints its
    batch. *)
Lemma load_videos_prints_batch (s : state store) :
  exists batch,
    In (EvPrint (OutLoading "videos" batch))
       (evs (@load_videos store dgraph broken_host (@VIDEOS_PATH broken_host) s)).
Proof.
  eexists. unfold load_videos, load_nodes. run. cbn. right. left. reflexivity.
Qed.

(** C1, counterexample. All thirteen files exist, so the sanity check
    passes; the playlists file lacks the [visibility] column, so
    [load_playlists] raises [KeyError].  The error is caught and printed,
    and that is the end of the run: the video load, an independent step
    that comes later, is not executed. *)
Lemma playlist_failure_prevents_video_load :
  let o := @create_data store dgraph broken_host (start []) in
  @missing_files broken_host = []
  /\ res o = inr tt
  /\ In (EvPrint (OutError (KeyError "visibility"))) (evs o)
  /\ ~ executed (@load_videos store dgraph broken_host (@VIDEOS_PATH broken_host))
         (evs o).
Proof.
  cbv zeta. split; [vm_compute; reflexivity|].
  split; [vm_compute; reflexivity|].
  split; [vm_compute; tauto|].
  intros (s & before & after & Htr).
  destruct (load_videos_prints_batch s) as (batch & Hin).
  assert (Hev : In (EvPrint (OutLoading "videos" batch))
                   (evs (@create_data store dgraph broken_host (start [])))).
  { rewrite Htr. apply in_app_iff. right. apply in_app_iff. left. exact Hin. }
  evaluate (evs (@create_data store dgraph broken_host (start []))) Hev.
  repeat (destruct Hev as [Hev|Hev]; [discriminate Hev|]). destruct Hev.
Qed.

(** C4, counterexample. [load_comment_replies_comment] looks both comment
    texts up with the exact match [eq], not with [anyoftext]. *)
Lemma reply_lookup_is_exact_match :
  let tr := evs (@load_comment_replies_comment store dgraph reply_host
                   (edges_csv "comment_replies_comment.csv") (start reply_answers)) in
  In (EvQuery (lookup_txn 0)
        ("{comment(func: eq(text, " +:+ quoted "hello there" +:+ ")){uid}}")) tr
  /\ ~ comment_lookups_are_fulltext tr.
Proof.
  cbv zeta. split; [vm_compute; tauto|].
  intros Hc.
  specialize (Hc (lookup_txn 0)
    ("{comment(func: eq(text, " +:+ quoted "hello there" +:+ ")){uid}}")).
  assert (Hf : is_substring "anyoftext(text, "
                 ("{comment(func: eq(text, " +:+ quoted "hello there" +:+ ")){uid}}")
               = true).
  { apply Hc; [vm_compute; tauto|vm_compute; reflexivity]. }
  evaluate (is_substring "anyoftext(text, "
              ("{comment(func: eq(text, " +:+ quoted "hello there" +:+ ")){uid}}")) Hf.
  discriminate Hf.
Qed.

(** C7, counterexample. Two comments match [hello]; both are deleted in
    one mutation, and the call evaluates to [None], not to the count 2. *)
Lemma delete_of_two_returns_none :
  let o := @delete_comment store dgraph bare_host "hello" (start hello_answers) in
  In (EvMutate (write_txn 1)
        (DelObj (PList [PDict [("uid", PStr "0x1")]; PDict [("uid", PStr "0x2")]])))
     (evs o)
  /\ res o = inr PNone
  /\ res o <> inr (PInt 2).
Proof.
  cbv zeta. split; [vm_compute; tauto|].
  split; [vm_compute; reflexivity|]. vm_compute. discriminate.
Qed.

(** C8, counterexample. The first lookup of a relationship load opens a
    read-only transaction that the load never commits nor discards. *)
Lemma lookup_transaction_is_not_released :
  let tr := evs (@load_comment_replies_comment store dgraph reply_host
                   (edges_csv "comment_replies_comment.csv") (start reply_answers)) in
  In (EvTxn (lookup_txn 0)) tr /\ ~ released (lookup_txn 0) tr.
Proof.
  cbv zeta. split; [vm_compute; tauto|].
  intros [Hr|Hr];
    evaluate (evs (@load_comment_replies_comment store dgraph reply_host
                     (edges_csv "comment_replies_comment.csv")
                     (start reply_answers))) Hr;
    repeat (destruct Hr as [Hr|Hr]; [discriminate Hr|]); destruct Hr.
Qed.
End Departures.

(** * Further properties *)

(** Case analysis on the innermost scrutinee the goal is stuck on. *)
Ltac case_goal :=
  match goal with
  | |- context [match ?x with _ => _ end] =>
      lazymatch x with
      | context [match _ with _ => _ end] => fail
      | _ => destruct x eqn:?
      end
  end.

(** ** Node loads that fail, and empty sources *)

Lemma row_fields_error (columns : list string) (r : row) (e : exn) :
  row_fields columns r = inl e ->
  exists c, e = KeyError c /\ In c columns /\ r !! c = None.
Proof.
  induction columns as [|c cs IH]; simpl; [discriminate|].
  unfold row_get. destruct (r !! c) as [v|] eqn:Hc; simpl.
  - destruct (row_fields cs r) as [e'|fs]; simpl; [|discriminate].
    intros He. inversion He; subst e'.
    destruct (IH eq_refl) as (c' & -> & Hin & Hnone).
    exists c'. auto.
  - intros He. inversion He. exists c. auto.
Qed.

Lemma row_fields_complete (columns : list string) (r : row) fs :
  row_fields columns r = inr fs ->
  forall c, In c columns -> r !! c <> None.
Proof.
  revert fs. induction columns as [|c cs IH]; intros fs; simpl; [tauto|].
  unfold row_get. destruct (r !! c) as [v|] eqn:Hc; simpl; [|discriminate].
  destruct (row_fields cs r) as [e'|fs']; simpl; [discriminate|].
  intros _ c' [<-|Hin]; [congruence|]. exact (IH _ eq_refl _ Hin).
Qed.

Lemma node_batch_missing_column (tmp type : string) (columns : list string)
    (rows : list row) :
  (exists r c, In r rows /\ In c columns /\ r !! c = None) ->
  forall i, exists c,
    In c columns /\ node_batch tmp type columns i rows = inl (KeyError c).
Proof.
  induction rows as [|r rows IH]; intros (r0 & c0 & Hr & Hc & Hnone) i.
  - destruct Hr.
  - simpl. unfold node_record.
    destruct (row_fields columns r) as [e|fs] eqn:Hf; simpl.
    + destruct (row_fields_error _ _ _ Hf) as (c & -> & Hin & _).
      exists c. auto.
    + destruct Hr as [->|Hr].
      * exfalso. exact (row_fields_complete _ _ _ Hf _ Hc Hnone).
      * destruct (IH (ex_intro _ r0 (ex_intro _ c0 (conj Hr (conj Hc Hnone))))
                     (S i)) as (c & Hin & ->).
        exists c. auto.
Qed.

Lemma node_batch_complete (tmp type : string) (columns : list string)
    (rows : list row) :
  (forall r c, In r rows -> In c columns -> r !! c <> None) ->
  forall i, exists batch, node_batch tmp type columns i rows = inr batch.
Proof.
  induction rows as [|r rows IH]; intros Hcols i; simpl; [eauto|].
  unfold node_record.
  destruct (row_fields columns r) as [e0|fs] eqn:Hf; simpl.
  - destruct (row_fields_error _ _ _ Hf) as (c & _ & Hin & Hnone).
    destruct (Hcols r c (or_introl eq_refl) Hin Hnone).
  - destruct (IH (fun r c Hr => Hcols r c (or_intror Hr)) (S i)) as (xs & ->).
    simpl. eauto.
Qed.

Section NodeLoadFailures.
Context {E : Type} `{Dgraph E} `{Host}.

(** What a node load does when its source cannot be read to the end. *)
Lemma load_nodes_source_fails what tmp type columns path (s : state E) e :
  rbind (open_csv path)
        (fun file => rbind (node_batch tmp type columns 1 file.1)
                           (reader_end file.2)) = inl e ->
  let t := {| txn_id := next_txn s; txn_read_only := false |} in
  evs (load_nodes what tmp type columns path s) = [EvTxn t; EvDiscard t]
  /\ res (load_nodes what tmp type columns path s)
     = inl (match (dg_discard (engine s) t).1 with
            | inl e' => e'
            | inr _ => e
            end).
Proof.
  intros Hsrc t. unfold load_nodes. run.
  destruct (open_csv path) as [e0|file]; cbn [rbind] in Hsrc; run.
  - inversion Hsrc; subst e0.
    destruct (dg_discard (engine s) _).1; split; reflexivity.
  - rewrite Hsrc. run.
    destruct (dg_discard (engine s) _).1; split; reflexivity.
Qed.

(** X1. A row without one of the columns: the load raises the [KeyError] of
    a missing column, unless the discard itself raises; the transaction
    it had opened is discarded and nothing is sent to the engine, not
    even the rows that were complete. *)
Theorem load_nodes_missing_column what tmp type columns path
    (rows : list row) (tail : option exn) (s : state E) :
  open_csv path = inr (rows, tail) ->
  (exists r c, In r rows /\ In c columns /\ r !! c = None) ->
  let t := {| txn_id := next_txn s; txn_read_only := false |} in
  evs (load_nodes what tmp type columns path s) = [EvTxn t; EvDiscard t]
  /\ exists c,
       In c columns
       /\ res (load_nodes what tmp type columns path s)
          = inl (match (dg_discard (engine s) t).1 with
                 | inl e' => e'
                 | inr _ => KeyError c
                 end).
Proof.
  intros Hopen Hmiss t.
  destruct (node_batch_missing_column tmp type columns rows Hmiss 1)
    as (c & Hin & Hbatch).
  destruct (load_nodes_source_fails what tmp type columns path s (KeyError c))
    as [Hevs Hres].
  { rewrite Hopen. cbn [rbind fst]. rewrite Hbatch. reflexivity. }
  split; [exact Hevs|]. exists c. split; [exact Hin|exact Hres].
Qed.

(** X2. A source that cannot be opened, or whose reading breaks off: the
    transaction is opened before the file is, so it is opened and
    discarded, nothing is sent, and the error of the file is raised
    unless the discard raises. *)
Theorem load_nodes_unreadable_file what tmp type columns path
    (s : state E) (e : exn) :
  open_csv path = inl e
  \/ (exists rows, open_csv path = inr (rows, Some e)
                   /\ forall r c, In r rows -> In c columns -> r !! c <> None) ->
  let t := {| txn_id := next_txn s; txn_read_only := false |} in
  evs (load_nodes what tmp type columns path s) = [EvTxn t; EvDiscard t]
  /\ res (load_nodes what tmp type columns path s)
     = inl (match (dg_discard (engine s) t).1 with
            | inl e' => e'
            | inr _ => e
            end).
Proof.
  intros Hfile t. apply load_nodes_source_fails.
  destruct Hfile as [-> | (rows & -> & Hcols)]; [reflexivity|].
  cbn [rbind fst snd].
  destruct (node_batch tmp type columns 1 rows) as [e'|batch] eqn:Hb;
    [|reflexivity].
  destruct (node_batch_complete tmp type columns rows Hcols 1) as (b & Hb').
  congruence.
Qed.

(** X3. An empty source is not skipped: the load still opens a transaction
    and submits a mutation, with no record in it. *)
Theorem load_nodes_empty_source what tmp type columns path (s : state E) :
  open_csv path = inr ([], None) ->
  let t := {| txn_id := next_txn s; txn_read_only := false |} in
  exists tail,
    evs (load_nodes what tmp type columns path s)
    = [EvTxn t; EvPrint (OutLoading what []);
       EvMutate t (SetObj (PList []))] ++ tail
    /\ (tail = [EvCommit t; EvDiscard t] \/ tail = [EvDiscard t]).
Proof.
  intros Hopen t. unfold load_nodes. run. rewrite Hopen. run.
  cbn [fst snd node_batch rbind reader_end]. run.
  destruct (dg_mutate (engine s) _ _).1; run; repeat (case_goal; run);
    eexists; (split; [reflexivity|]); first [right; reflexivity|left; reflexivity].
Qed.

(** X4. A node load commits only what the engine accepted: a commit is in
    the trace only when the mutation of the batch was sent before it and
    the engine answered it. *)
Theorem load_nodes_commits_after_mutation what tmp type columns path
    (s : state E) (t : txn) :
  In (EvCommit t) (evs (load_nodes what tmp type columns path s)) ->
  exists batch uids,
    evs (load_nodes what tmp type columns path s)
    = [EvTxn t; EvPrint (OutLoading what batch);
       EvMutate t (SetObj (PList batch)); EvCommit t; EvDiscard t]
    /\ (dg_mutate (engine s) t (SetObj (PList batch))).1 = inr uids.
Proof.
  intros Hin. unfold load_nodes in *. run in Hin. run.
  destruct (open_csv path) as [e0|file]; run in Hin; run.
  { repeat (case_in Hin; run in Hin). all: cbn in Hin; intuition discriminate. }
  destruct (rbind (node_batch tmp type columns 1 file.1) (reader_end file.2))
    as [e|batch]; run in Hin; run.
  { repeat (case_in Hin; run in Hin). all: cbn in Hin; intuition discriminate. }
  destruct (dg_mutate (engine s) _ (SetObj (PList batch))) as [[e|uids] e1] eqn:Hm;
    cbn [fst snd] in *; run in Hin; run.
  { repeat (case_in Hin; run in Hin). all: cbn in Hin; intuition discriminate. }
  exists batch, uids.
  repeat (case_in Hin; run in Hin).
  all: cbn in Hin; destruct Hin as [Hc|[Hc|[Hc|[Hc|[Hc|[]]]]]];
    try discriminate Hc; inversion Hc; subst t; run;
    repeat (case_goal; run); cbn [app];
    (split; [reflexivity|rewrite ?Hm; reflexivity]).
Qed.
End NodeLoadFailures.

(** ** Relationship rows that fail, and the edges that are written *)

Lemma count_events_app (p : event -> bool) (a b : list event) :
  count_events p (a ++ b) = count_events p a + count_events p b.
Proof. unfold count_events. rewrite List.filter_app, length_app. reflexivity. Qed.

Section RowFailures.
Context {E : Type} `{Dgraph E} `{Host}.

(** X5. A row that lacks one of the two columns is not skipped: the
    [KeyError] ends the load at that row, before any lookup is sent for
    it, and the rows after it are not processed. *)
Theorem relation_row_missing_column rel (r : row) (rest : list row)
    (s : state E) :
  r !! ep_column (rel_first rel) = None
  \/ r !! ep_column (rel_second rel) = None ->
  evs (relation_rows rel (r :: rest) s) = []
  /\ st (relation_rows rel (r :: rest) s) = s
  /\ exists c,
       res (relation_rows rel (r :: rest) s) = inl (KeyError c)
       /\ r !! c = None
       /\ (c = ep_column (rel_first rel) \/ c = ep_column (rel_second rel)).
Proof.
  intros Hmiss. unfold relation_rows. cbn [for_each]. unfold relation_row.
  unfold row_get.
  destruct (r !! ep_column (rel_first rel)) as [c1|] eqn:H1.
  - destruct Hmiss as [Hm|Hm]; [discriminate Hm|]. rewrite Hm. run.
    split; [reflexivity|]. split; [reflexivity|].
    exists (ep_column (rel_second rel)). auto.
  - run. split; [reflexivity|]. split; [reflexivity|].
    exists (ep_column (rel_first rel)). auto.
Qed.

(** X6. When the engine raises on the first lookup of a row, the row is not
    skipped either: the exception ends the load there, after the one
    query, with no warning and no mutation. *)
Theorem relation_row_lookup_raises rel (r : row) (rest : list row) c1 c2
    (s : state E) (e : exn) :
  row_get r (ep_column (rel_first rel)) = inr c1 ->
  row_get r (ep_column (rel_second rel)) = inr c2 ->
  let t := {| txn_id := next_txn s; txn_read_only := true |} in
  let q := lookup_query (rel_compact rel) (rel_first rel) (cell_str c1) in
  (dg_query (engine s) t q).1 = inl e ->
  res (relation_rows rel (r :: rest) s) = inl e
  /\ evs (relation_rows rel (r :: rest) s) = [EvTxn t; EvQuery t q].
Proof.
  intros H1 H2 t q Hq. unfold relation_rows. cbn [for_each].
  assert (Hrow : res (relation_row rel r s) = inl e
                 /\ evs (relation_row rel r s) = [EvTxn t; EvQuery t q]).
  { rewrite (relation_row_columns _ _ _ _ _ H1 H2). cbv zeta.
    destruct (rel_eager rel); run; rewrite lookup_res; fold t q; rewrite Hq;
      rewrite lookup_evs; split; reflexivity. }
  destruct Hrow as [Hres Hevs]. run. rewrite Hres, Hevs. split; reflexivity.
Qed.

(** The events of a row both of whose ends resolve, up to the mutation. *)
Lemma relation_row_resolved rel (r : row) c1 c2 (s : state E) uid1 uid2 :
  row_get r (ep_column (rel_first rel)) = inr c1 ->
  row_get r (ep_column (rel_second rel)) = inr c2 ->
  resolved rel (cell_str c1) (cell_str c2) s uid1 uid2 ->
  let t3 := {| txn_id := S (S (next_txn s)); txn_read_only := false |} in
  exists lookups tail,
    evs (relation_row rel r s)
    = lookups ++ [EvTxn t3;
                  EvPrint (OutStr (rel_announce rel (cell_str c1) (cell_str c2)));
                  EvMutate t3 (SetObj (edge_object rel uid1 uid2))] ++ tail
    /\ Forall lookup_or_print lookups
    /\ (tail = [EvCommit t3; EvDiscard t3] \/ tail = [EvDiscard t3]).
Proof.
  intros H1 H2 (resp1 & resp2 & Hr1 & Hr2 & Hu1 & Hu2 & Hn1 & Hn2) t3.
  rewrite (relation_row_columns _ _ _ _ _ H1 H2). cbv zeta.
  destruct (create_edge_evs rel (cell_str c1) (cell_str c2) uid1 uid2
              (st (lookup (rel_compact rel) (rel_second rel) (cell_str c2)
                     (st (lookup (rel_compact rel) (rel_first rel)
                            (cell_str c1) s)))))
    as (tail & Hevs & Htail).
  rewrite !lookup_next_txn in Hevs, Htail. fold t3 in Hevs, Htail.
  exists (evs (lookup (rel_compact rel) (rel_first rel) (cell_str c1) s)
          ++ evs (lookup (rel_compact rel) (rel_second rel) (cell_str c2)
                    (st (lookup (rel_compact rel) (rel_first rel)
                           (cell_str c1) s)))), tail.
  split; [|split; [|exact Htail]].
  - destruct (rel_eager rel); run; rewrite Hr1; run; rewrite <- ?Hu1, ?Hn1;
      run; rewrite Hr2; run; rewrite <- ?Hu1, <- ?Hu2, ?Hn1, ?Hn2;
      rewrite Hevs, <- app_assoc; reflexivity.
  - rewrite !lookup_evs. repeat constructor.
Qed.

Lemma edge_object_ends rel uid1 uid2 :
  In rel relations ->
  edge_object rel uid1 uid2
  = PDict [("uid", (edge_ends rel uid1 uid2).1);
           (rel_predicate rel,
            PList [PDict [("uid", (edge_ends rel uid1 uid2).2)]])].
Proof.
  unfold relations. simpl.
  intros Hrel. repeat (destruct Hrel as [<-|Hrel]; [reflexivity|]).
  destruct Hrel.
Qed.

(** X8. Which way each loader writes its edge.  Eight loaders set their
    predicate on the node of the first lookup and point it at the node of
    the second; [load_comment_replies_comment] does the converse, so that
    [replies_to_c_c] is set on the comment replied to and points at the
    reply.  Each loader has a predicate of its own. *)
Theorem edge_direction rel (r : row) c1 c2 (s : state E) uid1 uid2 :
  In rel relations ->
  row_get r (ep_column (rel_first rel)) = inr c1 ->
  row_get r (ep_column (rel_second rel)) = inr c2 ->
  resolved rel (cell_str c1) (cell_str c2) s uid1 uid2 ->
  let t3 := {| txn_id := S (S (next_txn s)); txn_read_only := false |} in
  let subject :=
    if String.eqb (rel_predicate rel) "replies_to_c_c" then uid2 else uid1 in
  let object :=
    if String.eqb (rel_predicate rel) "replies_to_c_c" then uid1 else uid2 in
  In (EvMutate t3
        (SetObj (PDict [("uid", subject);
                        (rel_predicate rel, PList [PDict [("uid", object)]])])))
     (evs (relation_row rel r s))
  /\ count_events is_mutate (evs (relation_row rel r s)) = 1
  /\ List.map rel_predicate relations
     = ["replies_to_c_c"; "replies_to_c_v"; "contains"; "comments"; "creates";
        "likes_u_c"; "likes_u_v"; "posts"; "saves"].
Proof.
  intros Hrel H1 H2 Hres t3 subject object.
  destruct (relation_row_resolved rel r c1 c2 s uid1 uid2 H1 H2 Hres)
    as (lookups & tail & Hevs & Hl & Htail).
  fold t3 in Hevs, Htail. rewrite Hevs.
  rewrite (edge_object_ends _ _ _ Hrel). unfold edge_ends.
  fold subject object.
  assert (Hs : (if String.eqb (rel_predicate rel) "replies_to_c_c"
                then (uid2, uid1) else (uid1, uid2)) = (subject, object)).
  { unfold subject, object. destruct (String.eqb _ _); reflexivity. }
  rewrite Hs. cbn [fst snd].
  split; [|split; [|reflexivity]].
  - apply in_app_iff. right. right. right. left. reflexivity.
  - rewrite !count_events_app.
    assert (Hz : count_events is_mutate lookups = 0).
    { clear -Hl. induction Hl as [|e l He _ IH]; [reflexivity|].
      unfold count_events in *. simpl.
      destruct e; simpl in *; try exact IH; destruct He. }
    rewrite Hz. destruct Htail as [-> | ->]; reflexivity.
Qed.
End RowFailures.

(** ** Bounds on the round trips of a relationship load *)

Section Bounds.
Context {E : Type} `{Dgraph E} `{Host}.

Lemma relation_row_calls rel (r : row) (s : state E) :
  count_events is_txn (evs (relation_row rel r s)) <= 3
  /\ count_events is_query (evs (relation_row rel r s)) <= 2
  /\ count_events is_mutate (evs (relation_row rel r s)) <= 1.
Proof.
  unfold relation_row, lookup, create_edge, warn_not_found.
  run. repeat (case_goal; run). all: cbn; lia.
Qed.

(** X9. A relationship load of [n] rows opens at most [3n] transactions,
    sends at most [2n] queries and at most [n] mutations, whatever the
    engine answers: no row is looked up twice and no row is written
    twice. *)
Theorem relation_rows_calls rel (rows : list row) (s : state E) :
  count_events is_txn (evs (relation_rows rel rows s)) <= 3 * length rows
  /\ count_events is_query (evs (relation_rows rel rows s)) <= 2 * length rows
  /\ count_events is_mutate (evs (relation_rows rel rows s)) <= length rows.
Proof.
  unfold relation_rows. revert s.
  induction rows as [|r rows IH]; intros s; cbn [for_each length].
  - cbn. lia.
  - run. rewrite !count_events_app.
    destruct (relation_row_calls rel r s) as (Ht & Hq & Hm).
    destruct (res (relation_row rel r s)).
    + cbn. lia.
    + destruct (IH (st (relation_row rel r s))) as (Ht' & Hq' & Hm'). lia.
Qed.
End Bounds.

(** ** What the queries send and return *)

Section QueryFacts.
Context {E : Type} `{Dgraph E} `{Host}.

Lemma run_query_evs q key (s : state E) :
  evs (run_query q key s)
  = [EvTxn {| txn_id := next_txn s; txn_read_only := true |};
     EvQuery {| txn_id := next_txn s; txn_read_only := true |} q;
     EvDiscard {| txn_id := next_txn s; txn_read_only := true |}].
Proof.
  unfold run_query. run. repeat (case_goal; run); reflexivity.
Qed.


(** X11. What the five list queries return once the engine has answered the
    query and the discard: the value under their key when the answer
    decodes to an object, the empty list when the object has no such key;
    an answer that cannot be decoded, or that is no object, is not taken
    for an empty result but raises. *)
Theorem run_query_result q key (s : state E) (resp : string) :
  let t := {| txn_id := next_txn s; txn_read_only := true |} in
  (dg_query (engine s) t q).1 = inr resp ->
  (dg_discard (dg_query (engine s) t q).2 t).1 = inr tt ->
  res (run_query q key s)
  = match json_loads resp with
    | inl e => inl e
    | inr (PDict d) =>
        inr (match assoc_get key d with
             | Some v => v
             | None => PList []
             end)
    | inr _ => inl (AttributeError "get")
    end.
Proof.
  intros t Hq Hd. unfold run_query. run. fold t. rewrite Hq. run.
  destruct (json_loads resp) as [e|data]; run; fold t;
    [rewrite Hd; reflexivity|].
  destruct data; cbn [py_get]; run; fold t; rewrite Hd; try reflexivity.
Qed.

(** X12. The count query returns [0] when the answer reports no [video_count]
    item, and otherwise the [count] of the first item ([0] if it has
    none). *)
Theorem query_video_count_result (s : state E) (resp : string)
    (d : list (string * pyval)) :
  let t := {| txn_id := next_txn s; txn_read_only := true |} in
  let q := "{ video_count(func: type(Video)) { count: count(uid) } }" in
  (dg_query (engine s) t q).1 = inr resp ->
  (dg_discard (dg_query (engine s) t q).2 t).1 = inr tt ->
  json_loads resp = inr (PDict d) ->
  (assoc_get "video_count" d = None \/ assoc_get "video_count" d = Some (PList []) ->
   res (query_video_count s) = inr (PInt 0))
  /\ (forall item rest,
        assoc_get "video_count" d = Some (PList (PDict item :: rest)) ->
        res (query_video_count s)
        = inr (match assoc_get "count" item with
               | Some n => n
               | None => PInt 0
               end)).
Proof.
  intros t q Hq Hd Hj.
  assert (Hres : res (query_video_count s)
    = rbind (py_get (PDict d) "video_count" (PList [])) (fun items =>
        if py_truthy items
        then rbind (py_item0 items) (fun item => py_get item "count" (PInt 0))
        else inr (PInt 0))).
  { unfold query_video_count. run. fold t q. rewrite Hq. run.
    rewrite Hj. run. cbn [py_get rbind].
    set (items := default (PList []) (assoc_get "video_count" d)).
    destruct (py_truthy items) eqn:Ht; run.
    - destruct (py_item0 items) as [e|item] eqn:Hi; run; cbn [rbind];
        fold t q; rewrite ?Hd; [reflexivity|].
      destruct (py_get item "count" (PInt 0)) eqn:Hg; run; fold t q;
        rewrite ?Hd; reflexivity.
    - fold t q. rewrite Hd. reflexivity. }
  rewrite Hres. cbn [py_get rbind]. split.
  - intros [-> | ->]; reflexivity.
  - intros item rest ->. cbn. destruct (assoc_get "count" item); reflexivity.
Qed.
End QueryFacts.

(** ** What a full load never does *)

Section TraceCombinators.
Context {E : Type} `{Dgraph E}.

Lemma always_call (P : list event -> Prop) {A} (ev : event)
    (f : E -> result A * E) :
  P [ev] -> always (E := E) P (call ev f).
Proof. intros HP s. exact HP. Qed.

Lemma always_print (P : list event -> Prop) (o : output) :
  P [EvPrint o] -> always (E := E) P (print o).
Proof. intros HP s. exact HP. Qed.

Lemma always_phased_first (P Q : event -> Prop) {A B} (m : M E A)
    (f : A -> M E B) :
  always (Forall P) m ->
  (forall a, always (phased P Q) (f a)) ->
  always (phased P Q) (bind m f).
Proof.
  intros Hm Hf s. rewrite bind_evs. destruct (res (m s)) as [e|a].
  - exists (evs (m s)), []. split; [reflexivity|]. split; [apply Hm|constructor].
  - destruct (Hf a (st (m s))) as (first & second & Heq & Hp & Hq).
    exists (evs (m s) ++ first), second. rewrite Heq, app_assoc.
    split; [reflexivity|]. split; [|exact Hq].
    apply Forall_app. split; [apply Hm|exact Hp].
Qed.

Lemma always_phased_second (P Q : event -> Prop) {A} (m : M E A) :
  always (Forall Q) m -> always (phased P Q) m.
Proof.
  intros Hm s. exists [], (evs (m s)).
  split; [reflexivity|]. split; [constructor|apply Hm].
Qed.

Lemma always_phased_except (P Q : event -> Prop) {A} (body : M E A)
    (handler : exn -> M E A) :
  always (phased P Q) body ->
  (forall e, always (Forall Q) (handler e)) ->
  always (phased P Q) (try_except body handler).
Proof.
  intros Hb Hh s. rewrite try_except_evs.
  destruct (Hb s) as (first & second & Heq & Hp & Hq). rewrite Heq.
  exists first, (second ++ match res (body s) with
                           | inl e => evs (handler e (st (body s)))
                           | inr _ => []
                           end).
  rewrite app_assoc. split; [reflexivity|]. split; [exact Hp|].
  apply Forall_app. split; [exact Hq|].
  destruct (res (body s)); [apply Hh|constructor].
Qed.
End TraceCombinators.

(** Splits a statement about every trace of a computation along the
    structure of the computation; what is left is the statement for the
    single events. *)
Ltac traces :=
  unfold txn_query, txn_mutate, txn_commit, txn_discard;
  repeat first
    [ apply always_lift; [typeclasses eauto]
    | apply always_ret; [typeclasses eauto]
    | apply always_raise; [typeclasses eauto]
    | apply always_if
    | apply always_call
    | apply always_print
    | apply always_try_finally; [typeclasses eauto| |]
    | apply always_client_txn; [typeclasses eauto|intros ? ?; split]
    | apply always_bind; [typeclasses eauto| |intros ?] ].

Section LoadDiscipline.
Context {E : Type} `{Dgraph E} `{Host}.

Lemma load_all_body_always (P : list event -> Prop) `{!Additive P} :
  (forall what tmp type columns path,
     always (E := E) P (load_nodes what tmp type columns path)) ->
  (forall rel path, always (E := E) P (load_relationship rel path)) ->
  always (E := E) P (sanity_check ;; load_all).
Proof.
  intros Hn Hr.
  apply always_bind; [assumption| |intros _].
  - unfold sanity_check. destruct missing_files;
      [apply always_ret|apply always_raise]; assumption.
  - unfold load_all.
    do 4 (apply always_bind; [assumption|apply Hn|intros _]).
    do 8 (apply always_bind; [assumption|apply Hr|intros _]).
    apply Hr.
Qed.

Lemma load_nodes_forall (Q : event -> Prop) what tmp type columns path :
  (forall t, txn_read_only t = false -> Q (EvTxn t)) ->
  (forall batch, Q (EvPrint (OutLoading what batch))) ->
  (forall t batch, txn_read_only t = false ->
                   Q (EvMutate t (SetObj (PList batch)))) ->
  (forall t, txn_read_only t = false -> Q (EvCommit t)) ->
  (forall t, txn_read_only t = false -> Q (EvDiscard t)) ->
  always (E := E) (Forall Q) (load_nodes what tmp type columns path).
Proof.
  intros Ht Hp Hm Hc Hd. unfold load_nodes. traces;
    repeat constructor; auto.
Qed.

Lemma relation_row_forall (Q : event -> Prop) rel r :
  (forall t, Q (EvTxn t)) ->
  (forall t q, txn_read_only t = true -> Q (EvQuery t q)) ->
  (forall s, Q (EvPrint (OutStr s))) ->
  (forall t uid1 uid2, txn_read_only t = false ->
                       Q (EvMutate t (SetObj (edge_object rel uid1 uid2)))) ->
  (forall t, txn_read_only t = false -> Q (EvCommit t)) ->
  (forall t, txn_read_only t = false -> Q (EvDiscard t)) ->
  always (E := E) (Forall Q) (relation_row rel r).
Proof.
  intros Ht Hq Hp Hm Hc Hd.
  unfold relation_row, lookup, create_edge, warn_not_found. traces;
    repeat constructor; auto.
Qed.

(** X13. A full load never deletes and never mixes the modes of its
    transactions: in every run of [create_data] each query runs in a
    read-only transaction, each mutation is a [set_obj] in a write
    transaction, and only write transactions are committed. *)
Theorem create_data_discipline (s : state E) :
  Forall load_discipline (evs (create_data s)).
Proof.
  apply (load_all_always (Forall load_discipline)).
  - intros. apply load_nodes_forall; simpl; auto.
  - intros rel path. apply (load_relationship_always (Forall load_discipline)).
    intros r. apply relation_row_forall; simpl; auto.
  - intros o s'. repeat constructor.
Qed.

(** X14. The node loads come first.  Every trace of [create_data] splits in
    two parts: no query is sent in the first, and no batch of node records
    is submitted in the second.  So no endpoint is looked up before the
    last node batch was sent. *)
Theorem create_data_nodes_before_lookups (s : state E) :
  phased (fun e => is_query e = false) (fun e => is_batch e = false)
         (evs (create_data s)).
Proof.
  unfold create_data. apply always_phased_except.
  - apply always_phased_first; [|intros _].
    { unfold sanity_check. destruct missing_files;
        [apply always_ret|apply always_raise]; typeclasses eauto. }
    unfold load_all.
    do 4 (apply always_phased_first;
          [apply load_nodes_forall; reflexivity|intros _]).
    apply always_phased_second.
    assert (Hr : forall rel path,
      always (E := E) (Forall (fun e => is_batch e = false))
        (load_relationship rel path)).
    { intros rel path. apply load_relationship_always; [typeclasses eauto|].
      intros r. apply relation_row_forall; reflexivity. }
    do 8 (apply always_bind; [typeclasses eauto|apply Hr|intros _]).
    apply Hr.
  - intros e s'. repeat constructor.
Qed.

(** X15. A run of [create_data] either completes the thirteen steps and then
    is nothing but those steps, with no error report; or it ends with
    exactly one error report, the two last lines of its trace, because the
    sanity check failed or a step raised. *)
Theorem create_data_reports_once (s : state E) :
  (missing_files = []
   /\ res (run_steps load_steps s) = inr tt
   /\ create_data s = run_steps load_steps s
   /\ Forall (fun e => is_error_report e = false) (evs (create_data s)))
  \/ (exists e body,
        evs (create_data s)
        = body ++ [EvPrint (OutError e); EvPrint (OutTraceback e)]
        /\ Forall (fun e => is_error_report e = false) body
        /\ (missing_files <> []
            \/ res (run_steps load_steps s) = inl e)).
Proof.
  assert (Hbody : always (E := E) (Forall (fun e => is_error_report e = false))
                    (sanity_check ;; load_all)).
  { apply load_all_body_always; [typeclasses eauto| |].
    - intros. apply load_nodes_forall; reflexivity.
    - intros rel path. apply load_relationship_always; [typeclasses eauto|].
      intros r. apply relation_row_forall; reflexivity. }
  specialize (Hbody s).
  assert (Hrun : missing_files = [] ->
                 (sanity_check ;; load_all) s = run_steps load_steps s).
  { intros Hm. rewrite <- load_all_steps. unfold sanity_check. rewrite Hm.
    apply outcome_eq; run; reflexivity. }
  unfold create_data, report_error in *.
  destruct (res ((sanity_check ;; load_all) s)) as [e|[]] eqn:Hres.
  - right. exists e, (evs ((sanity_check ;; load_all) s)).
    split; [rewrite try_except_evs, Hres; reflexivity|]. split; [exact Hbody|].
    destruct missing_files as [|f fs] eqn:Hm; [right|left; discriminate].
    rewrite <- (Hrun eq_refl). exact Hres.
  - left.
    assert (Hm : missing_files = []).
    { unfold sanity_check in Hres. destruct missing_files; [reflexivity|].
      run in Hres. discriminate Hres. }
    assert (Heq : try_except (sanity_check ;; load_all)
                    (fun e => print (OutError e) ;; print (OutTraceback e)) s
                  = run_steps load_steps s).
    { rewrite <- (Hrun Hm). unfold try_except. rewrite Hres. reflexivity. }
    split; [exact Hm|]. split; [rewrite <- (Hrun Hm); exact Hres|].
    split; [exact Heq|]. rewrite Heq, <- (Hrun Hm). exact Hbody.
Qed.
End LoadDiscipline.

(** ** Delete by term: what is deleted *)

Lemma uids_of_dicts (ds : list (list (string * pyval))) :
  uids_of (List.map PDict ds) = inr (dict_uids ds).
Proof.
  unfold dict_uids. induction ds as [|d ds IH]; [reflexivity|].
  cbn [List.map uids_of has_uid item_uid rbind]. rewrite IH.
  destruct (assoc_get "uid" d) as [u|] eqn:Hu; cbn; rewrite Hu; reflexivity.
Qed.

(** X16. Of the objects the engine lists, [delete_comment] takes those that
    carry a uid and passes over the others; an item that is no object, no
    string and no list makes it raise instead. *)
Theorem delete_takes_objects_with_uid (ds : list (list (string * pyval)))
    (x : pyval) (rest : list pyval) :
  rbind (py_iter (PList (List.map PDict ds))) uids_of = inr (dict_uids ds)
  /\ match x with
     | PDict _ | PStr _ | PList _ => True
     | _ => rbind (py_iter (PList (List.map PDict ds ++ x :: rest))) uids_of
            = inl (TypeError "argument is not iterable")
     end.
Proof.
  split; [apply uids_of_dicts|].
  assert (Hx : forall e, has_uid x = inl e ->
    uids_of (List.map PDict ds ++ x :: rest) = inl e).
  { intros e He. induction ds as [|d ds IH].
    - cbn. rewrite He. reflexivity.
    - cbn [List.map app uids_of has_uid item_uid rbind]. rewrite IH.
      destruct (assoc_get "uid" d) as [u|] eqn:Hu; cbn; rewrite ?Hu; reflexivity. }
  destruct x; try exact I; apply Hx; reflexivity.
Qed.

Lemma del_objects_shape (uids : list pyval) :
  Forall (fun o => exists uid, o = PDict [("uid", uid)])
         (List.map (fun uid => PDict [("uid", uid)]) uids).
Proof.
  induction uids as [|u uids IH]; constructor; [eexists; reflexivity|exact IH].
Qed.

Section DeleteFacts.
Context {E : Type} `{Dgraph E} `{Host}.

(** X17. In every run, whatever the engine answers, [delete_comment] sends
    one query and at most one mutation; the mutation is a [del_obj], in a
    write transaction, of at least one object, and each object names a uid
    and nothing else, so that whole nodes are deleted. *)
Theorem delete_comment_sends (comment_text : string) (s : state E) :
  count_events is_query (evs (delete_comment comment_text s)) = 1
  /\ count_events is_mutate (evs (delete_comment comment_text s)) <= 1
  /\ Forall delete_discipline (evs (delete_comment comment_text s)).
Proof.
  unfold delete_comment. cbv zeta. run.
  repeat (case_goal; run).
  all: cbn [app]; split; [reflexivity|]; split; [cbn; lia|].
  all: repeat first [apply del_objects_shape | constructor].
  all: cbn; discriminate.
Qed.

(** ** The duration option has no default *)

(** X18. Option 3 does not fall back on a default as option 8 does: when
    [int] rejects the input, what [int] raised is raised and nothing is
    sent to the engine; when [int] accepts it, the one query sent filters
    on a duration greater than that number, and at most one line is
    printed after it. *)
Theorem duration_option (min_duration : string) (s : state E) :
  let t := {| txn_id := next_txn s; txn_read_only := true |} in
  match int_of_str min_duration with
  | inl e =>
      res (main_option_3 min_duration s) = inl e
      /\ evs (main_option_3 min_duration s) = []
  | inr n =>
      exists tail,
        evs (main_option_3 min_duration s)
        = [EvTxn t;
           EvQuery t ("{ long_videos(func: gt(duration, " +:+ pretty n
                      +:+ ")) { uid title duration } }");
           EvDiscard t] ++ tail
        /\ (tail = [] \/ exists o, tail = [EvPrint o])
  end.
Proof.
  cbv zeta. unfold main_option_3.
  destruct (int_of_str min_duration) as [e|n]; run; [split; reflexivity|].
  unfold query_by_numeric_duration. rewrite run_query_evs.
  destruct (res (run_query _ _ s)) as [e|results].
  - exists []. split; [reflexivity|left; reflexivity].
  - destruct (py_truthy results); eexists; (split; [reflexivity|]);
      right; eexists; reflexivity.
Qed.
End DeleteFacts.

(** ** Text parameters and query texts *)

Lemma str_app_cons (c : ascii) (a b : string) :
  String c a +:+ b = String c (a +:+ b).
Proof. reflexivity. Qed.

Lemma str_length_app (a b : string) :
  String.length (a +:+ b) = String.length a + String.length b.
Proof.
  induction a as [|c a IH]; [reflexivity|].
  rewrite str_app_cons. cbn [String.length]. rewrite IH. reflexivity.
Qed.

Lemma str_app_assoc (a b c : string) : (a +:+ b) +:+ c = a +:+ (b +:+ c).
Proof.
  induction a as [|x a IH]; [reflexivity|].
  rewrite !str_app_cons, IH. reflexivity.
Qed.

Lemma str_app_inv_tail (a b c : string) : a +:+ c = b +:+ c -> a = b.
Proof.
  revert b. induction a as [|x a IH]; intros [|y b] Heq.
  - reflexivity.
  - exfalso. apply (f_equal String.length) in Heq.
    rewrite !str_length_app in Heq. cbn [String.length] in Heq. lia.
  - exfalso. apply (f_equal String.length) in Heq.
    rewrite !str_length_app in Heq. cbn [String.length] in Heq. lia.
  - rewrite !str_app_cons in Heq. inversion Heq; subst. f_equal.
    apply IH. assumption.
Qed.

Lemma replace_quote_head (s x : string) : replace_quote s <> String dquote x.
Proof.
  destruct s as [|c s]; simpl; [discriminate|].
  destruct (Ascii.eqb c dquote) eqn:Hc; [discriminate|].
  intros Heq. inversion Heq; subst. rewrite Ascii.eqb_refl in Hc. discriminate.
Qed.

Lemma replace_quote_inj (a b : string) :
  replace_quote a = replace_quote b -> a = b.
Proof.
  revert b. induction a as [|x a IH]; intros [|y b]; simpl.
  - reflexivity.
  - destruct (Ascii.eqb y dquote); discriminate.
  - destruct (Ascii.eqb x dquote); discriminate.
  - destruct (Ascii.eqb x dquote) eqn:Hx, (Ascii.eqb y dquote) eqn:Hy;
      intros Heq; inversion Heq; subst.
    + apply Ascii.eqb_eq in Hx, Hy. subst. f_equal. apply IH. assumption.
    + exfalso. eapply replace_quote_head. symmetry. eassumption.
    + exfalso. eapply replace_quote_head. eassumption.
    + f_equal. apply IH. assumption.
Qed.

(** X19. No two search terms are sent as the same query: the text of each of
    the three queries that take a string determines the string, and a
    string that holds no double quote is sent as it is. *)
Theorem text_queries_are_injective :
  (forall a b, query_by_text_q a = query_by_text_q b -> a = b)
  /\ (forall a b,
        query_video_posters_reverse_q a = query_video_posters_reverse_q b ->
        a = b)
  /\ (forall a b, delete_comment_q a = delete_comment_q b -> a = b)
  /\ (forall a, is_substring dq a = false -> replace_quote a = a).
Proof.
  split; [|split; [|split]].
  - intros a b Heq. unfold query_by_text_q in Heq. cbv zeta in Heq.
    apply (inj (String.app _)), (inj (String.app _)) in Heq.
    apply str_app_inv_tail in Heq. apply replace_quote_inj. exact Heq.
  - intros a b Heq. unfold query_video_posters_reverse_q in Heq. cbv zeta in Heq.
    apply (inj (String.app _)), (inj (String.app _)) in Heq.
    apply str_app_inv_tail in Heq. apply replace_quote_inj. exact Heq.
  - intros a b Heq. unfold delete_comment_q in Heq.
    apply (inj (String.app _)), (inj (String.app _)) in Heq.
    apply str_app_inv_tail in Heq. exact Heq.
  - induction a as [|c a IH]; [reflexivity|].
    cbn [is_substring is_prefix replace_quote]. unfold dq.
    cbn [is_prefix]. fold dq.
    destruct (Ascii.eqb dquote c) eqn:Hc.
    + destruct a; discriminate.
    + rewrite Ascii.eqb_sym, Hc. cbn. intros Hs. rewrite IH; [reflexivity|].
      exact Hs.
Qed.

(** ** The data files *)

Lemma list_ascii_of_string_app (a b : string) :
  String.list_ascii_of_string (a +:+ b)
  = String.list_ascii_of_string a ++ String.list_ascii_of_string b.
Proof.
  induction a as [|c a IH]; [reflexivity|].
  rewrite str_app_cons. cbn [String.list_ascii_of_string]. rewrite IH.
  reflexivity.
Qed.

Lemma ends_with_slash_app (a b : string) :
  b <> EmptyString -> ends_with_slash (a +:+ b) = ends_with_slash b.
Proof.
  intros Hb. unfold ends_with_slash.
  rewrite list_ascii_of_string_app, last_app.
  destruct (last (String.list_ascii_of_string b)) eqn:Hl; [reflexivity|].
  apply last_None in Hl. destruct b; [congruence|discriminate Hl].
Qed.

Lemma path_join_plain (a b : string) :
  plain_root a ->
  b <> EmptyString -> is_prefix "/" b = false -> ends_with_slash b = false ->
  path_join a b = a +:+ "/" +:+ b /\ plain_root (a +:+ "/" +:+ b).
Proof.
  intros [Ha Hs] Hb Hp He. split.
  - unfold path_join. rewrite Hs.
    destruct a as [|x a]; [congruence|]. cbn [String.eqb orb].
    destruct b as [|c b]; [congruence|].
    cbn [is_prefix] in Hp. destruct (Ascii.eqb "/" c) eqn:Hc.
    + cbn in Hp. discriminate Hp.
    + destruct c as [[] [] [] [] [] [] [] []]; try reflexivity.
      discriminate Hc.
  - split.
    + destruct a; [congruence|discriminate].
    + rewrite ends_with_slash_app by (destruct b; [congruence|discriminate]).
      rewrite (ends_with_slash_app "/" b Hb). exact He.
Qed.

(** X20. Below a project root that is not empty and does not end with a
    slash, the thirteen required files are the root followed by the fixed
    relative paths of [data/nodes] and [data/edges]; they are pairwise
    distinct, the four node files first. *)
Theorem required_files_below_root `{Host} :
  plain_root project_root ->
  required_files = List.map (fun p => project_root +:+ p) data_files
  /\ NoDup required_files.
Proof.
  intros Hroot.
  assert (Hdir : forall d,
    d = "nodes" \/ d = "edges" ->
    path_join (path_join project_root "data") d
    = project_root +:+ "/data/" +:+ d
    /\ plain_root (path_join (path_join project_root "data") d)).
  { intros d Hd.
    destruct (path_join_plain project_root "data" Hroot) as [-> Hdata];
      try reflexivity; [discriminate|].
    destruct (path_join_plain _ d Hdata) as [-> Hplain];
      try (destruct Hd as [-> | ->]; reflexivity);
      [destruct Hd as [-> | ->]; discriminate|].
    split; [|exact Hplain]. rewrite !str_app_assoc. reflexivity. }
  assert (Hfile : forall d f,
    d = "nodes" \/ d = "edges" ->
    f <> EmptyString -> is_prefix "/" f = false -> ends_with_slash f = false ->
    path_join (path_join (path_join project_root "data") d) f
    = project_root +:+ "/data/" +:+ d +:+ "/" +:+ f).
  { intros d f Hd Hf Hp He. destruct (Hdir d Hd) as [Heq Hplain].
    destruct (path_join_plain _ f Hplain Hf Hp He) as [-> _].
    rewrite Heq, !str_app_assoc. reflexivity. }
  assert (Hreq : required_files
                 = List.map (fun p => project_root +:+ p) data_files).
  { unfold required_files, COMMENTS_PATH, PLAYLISTS_PATH, USERS_PATH,
      VIDEOS_PATH, COMMENT_REPLIES_COMMENT, COMMENT_REPLIES_VIDEO,
      PLAYLIST_CONTAINS_VIDEO, USER_COMMENTS, USER_CREATES_PLAYLIST,
      USER_LIKES_COMMENT, USER_LIKES_VIDEO, USER_POSTS_VIDEO,
      USER_SAVES_VIDEO, NODES_DATA_PATH, EDGES_DATA_PATH.
    rewrite !Hfile by (first [left; reflexivity | right; reflexivity
                             | discriminate | reflexivity]).
    reflexivity. }
  split; [exact Hreq|]. rewrite Hreq.
  apply NoDup_fmap_2; [apply _|].
  unfold data_files. apply NoDup_ListNoDup.
  repeat (constructor; [cbn; intuition discriminate|]). constructor.
Qed.

(** ** A relationship load that breaks off *)

Section BrokenLoads.
Context {E : Type} `{Dgraph E} `{Host}.

(** X7. A row that raises ends the relationship load, and nothing is undone:
    the trace is the trace of the rows before it, whose edges were each
    committed on their own, followed by the trace of the failing row; no
    row after it is processed and no compensating call is made. *)
Theorem relation_rows_stop_at_failure rel (before : list row) (r : row)
    (after : list row) (s : state E) (e : exn) :
  res (relation_rows rel before s) = inr tt ->
  res (relation_row rel r (st (relation_rows rel before s))) = inl e ->
  relation_rows rel (before ++ r :: after) s
  = {| res := inl e;
       st := st (relation_row rel r (st (relation_rows rel before s)));
       evs := evs (relation_rows rel before s)
              ++ evs (relation_row rel r (st (relation_rows rel before s))) |}.
Proof.
  unfold relation_rows. revert s.
  induction before as [|r0 before IH]; intros s Hbefore Hrow.
  - cbn [app for_each] in *. unfold bind. cbn [ret st res evs] in *.
    rewrite Hrow. reflexivity.
  - cbn [app for_each] in *. unfold bind in *.
    destruct (res (relation_row rel r0 s)) as [e0|[]] eqn:Hr0;
      cbn [res st evs] in *; [discriminate|].
    rewrite (IH _ Hbefore Hrow). cbn [res st evs]. rewrite app_assoc.
    reflexivity.
Qed.
End BrokenLoads.

(** ** The further properties on example inputs *)

Section MoreRuns.
Import Fixture Examples MoreExamples.

#[local] Existing Instance dgraph.

(** A ragged comments file: the [KeyError] names [text], and the one
    complete row is not sent. *)
Lemma load_nodes_missing_column_witness :
  evs (@load_comments store dgraph ragged_host (nodes_csv "comments.csv") (start []))
  = [EvTxn (write_txn 0); EvDiscard (write_txn 0)]
  /\ res (@load_comments store dgraph ragged_host (nodes_csv "comments.csv") (start []))
     = inl (KeyError "text").
Proof.
  destruct (@load_nodes_missing_column store dgraph ragged_host
              "comments" "_:c" "Comment" ["text"] (nodes_csv "comments.csv")
              [ {[ "text" := Some "hello world" ]}; ∅ ] None (start []) eq_refl)
    as (Hevs & c & _ & _).
  - exists ∅, "text". split; [right; left; reflexivity|].
    split; [left; reflexivity|reflexivity].
  - split; [exact Hevs|]. vm_compute. reflexivity.
Defined.

(** No comments file at all. *)
Lemma load_nodes_unreadable_file_witness :
  evs (@load_comments store dgraph bare_host (nodes_csv "comments.csv") (start []))
  = [EvTxn (write_txn 0); EvDiscard (write_txn 0)]
  /\ res (@load_comments store dgraph bare_host (nodes_csv "comments.csv") (start []))
     = inl (OSError "No such file or directory").
Proof.
  exact (@load_nodes_unreadable_file store dgraph bare_host
           "comments" "_:c" "Comment" ["text"] (nodes_csv "comments.csv")
           (start []) (OSError "No such file or directory") (or_introl eq_refl)).
Defined.

(** A comments file without lines. *)
Lemma load_nodes_empty_source_witness :
  exists tail,
    evs (@load_comments store dgraph empty_host (nodes_csv "comments.csv") (start []))
    = [EvTxn (write_txn 0); EvPrint (OutLoading "comments" []);
       EvMutate (write_txn 0) (SetObj (PList []))] ++ tail
    /\ (tail = [EvCommit (write_txn 0); EvDiscard (write_txn 0)]
        \/ tail = [EvDiscard (write_txn 0)]).
Proof.
  exact (@load_nodes_empty_source store dgraph empty_host
           "comments" "_:c" "Comment" ["text"] (nodes_csv "comments.csv")
           (start []) eq_refl).
Defined.

(** The load of three comments commits, after the engine took the batch. *)
Lemma load_nodes_commits_after_mutation_witness :
  exists batch uids,
    evs (@load_comments store dgraph comments_host (nodes_csv "comments.csv") (start []))
    = [EvTxn (write_txn 0); EvPrint (OutLoading "comments" batch);
       EvMutate (write_txn 0) (SetObj (PList batch));
       EvCommit (write_txn 0); EvDiscard (write_txn 0)]
    /\ (dg_mutate (engine (start [])) (write_txn 0) (SetObj (PList batch))).1
       = inr uids.
Proof.
  apply (@load_nodes_commits_after_mutation store dgraph comments_host
           "comments" "_:c" "Comment" ["text"] (nodes_csv "comments.csv")
           (start []) (write_txn 0)).
  assert (Hevs : In (EvCommit (write_txn 0))
    (evs (@load_comments store dgraph comments_host
            (nodes_csv "comments.csv") (start []))))
    by (vm_compute; tauto).
  exact Hevs.
Defined.

(** A row without [comment_text] ends the load of [user_comments.csv]. *)
Lemma relation_row_missing_column_witness :
  evs (@relation_rows store dgraph bare_host user_comments
         [short_row; orphan_row] (start orphan_answers)) = []
  /\ res (@relation_rows store dgraph bare_host user_comments
            [short_row; orphan_row] (start orphan_answers))
     = inl (KeyError "comment_text").
Proof.
  destruct (@relation_row_missing_column store dgraph bare_host user_comments
              short_row [orphan_row] (start orphan_answers) (or_intror eq_refl))
    as (Hevs & _ & c & _ & _ & _).
  split; [exact Hevs|]. vm_compute. reflexivity.
Defined.

(** The engine is down when the first user is looked up. *)
Lemma relation_row_lookup_raises_witness :
  res (@relation_rows unit down bare_host user_comments
         [orphan_row; orphan_row] down_start)
  = inl (DgraphError "unavailable")
  /\ evs (@relation_rows unit down bare_host user_comments
            [orphan_row; orphan_row] down_start)
     = [EvTxn (lookup_txn 0);
        EvQuery (lookup_txn 0) (lookup_query false user_end "zoe")].
Proof.
  apply (@relation_row_lookup_raises unit down bare_host user_comments
           orphan_row [orphan_row] (Some "zoe") (Some "goodbye") down_start
           (DgraphError "unavailable")).
  - vm_compute. reflexivity.
  - vm_compute. reflexivity.
  - reflexivity.
Defined.

(** An orphan row is skipped, and the short row after it ends the load. *)
Lemma relation_rows_stop_at_failure_witness :
  @relation_rows store dgraph bare_host user_comments
    [orphan_row; short_row; orphan_row] (start orphan_answers)
  = {| res := inl (KeyError "comment_text");
       st := {| engine := engine (start orphan_answers); next_txn := 1 |};
       evs := [EvTxn (lookup_txn 0);
               EvQuery (lookup_txn 0) (lookup_query false user_end "zoe");
               EvPrint (OutStr (not_found_warning user_end "zoe"))] |}.
Proof.
  refine (eq_trans
    (@relation_rows_stop_at_failure store dgraph bare_host user_comments
       [orphan_row] short_row [orphan_row] (start orphan_answers)
       (KeyError "comment_text") _ _) _);
    vm_compute; reflexivity.
Defined.

(** The reply row: [replies_to_c_c] is set on the comment replied to. *)
Lemma edge_direction_witness :
  In (EvMutate (write_txn 2)
        (SetObj (PDict [("uid", PStr "0x1");
                        ("replies_to_c_c", PList [PDict [("uid", PStr "0x2")]])])))
     (evs (@relation_row store dgraph bare_host comment_replies_comment
             reply_row (start reply_answers))).
Proof.
  destruct (@edge_direction store dgraph bare_host comment_replies_comment
              reply_row (Some "hello there") (Some "hello world")
              (start reply_answers) (PStr "0x2") (PStr "0x1"))
    as (Hin & _ & _).
  - left. reflexivity.
  - vm_compute. reflexivity.
  - vm_compute. reflexivity.
  - exists (uid_answer "comment" ["0x2"]), (uid_answer "comment" ["0x1"; "0x7"]).
    repeat split; vm_compute; reflexivity.
  - exact Hin.
Defined.

(** An answer without the key: the text search returns the empty list. *)
Lemma run_query_result_witness :
  res (@query_by_text store dgraph bare_host "hello" (start [])) = inr (PList []).
Proof.
  refine (eq_trans
    (@run_query_result store dgraph bare_host
       (query_by_text_q "hello") "comments" (start []) "{}" eq_refl eq_refl) _).
  vm_compute. reflexivity.
Defined.

(** An engine that counts three videos. *)
Lemma query_video_count_result_witness :
  res (@query_video_count store dgraph bare_host (start count_answers))
  = inr (PInt 3).
Proof.
  destruct (@query_video_count_result store dgraph bare_host
              (start count_answers)
              ("{" +:+ quoted "video_count" +:+ ":[{" +:+ quoted "count" +:+ ":3}]}")
              [("video_count", PList [PDict [("count", PInt 3)]])])
    as [_ Hcount].
  - vm_compute. reflexivity.
  - vm_compute. reflexivity.
  - vm_compute. reflexivity.
  - exact (Hcount [("count", PInt 3)] [] eq_refl).
Defined.

(** The root [/app]. *)
Lemma required_files_below_root_witness :
  @required_files bare_host
  = List.map (fun p => "/app" +:+ p) data_files.
Proof.
  refine (proj1 (@required_files_below_root bare_host _)).
  split; [discriminate|reflexivity].
Defined.
End MoreRuns.
